(** * farm_survey: the weather and field data pipelines

    A shallow embedding of [assets/scripts/weather_data_processor.py],
    [part_3/field_data_processor.py], [part_3/data_ingestion.py] and
    [part_3/validate_data.py].

    Conventions.
    - Python floats are idealised as rationals ([Q]); [float(...)] is a
      parameter of the weather section.  The integers of an [int64]
      column are kept apart from floats in the field frame, with numpy's
      wrap-around where the code meets it.
    - Exceptions are values of [exn]; a method is a state-and-error
      computation over its [self] record.
    - The logger is the list of calls made to it, oldest first. *)

From Stdlib Require Import QArith Qabs.
From stdpp Require Import gmap strings list sorting.
From Equations Require Import Equations.

Close Scope Q_scope.
Open Scope string_scope.
Open Scope list_scope.

(** ** Exceptions, results, logging *)

Inductive exn : Type :=
| StopIteration
| ValueError
| KeyError (label : string)
| IndexError
| AttributeError
| TypeError
| ReError
| SourceError.

Inductive result (A : Type) : Type :=
| Ok (a : A)
| Raise (e : exn).
Arguments Ok {A} a.
Arguments Raise {A} e.

Inductive level : Type := DEBUG | INFO | WARNING | ERROR.

Definition log_record : Type := level * string.

(** ** Methods as computations over [self] *)

Definition M (S A : Type) : Type := S -> result A * S.

Definition ret {S A} (a : A) : M S A := fun s => (Ok a, s).

Definition raise {S A} (e : exn) : M S A := fun s => (Raise e, s).

Definition bind {S A B} (c : M S A) (k : A -> M S B) : M S B :=
  fun s =>
    match c s with
    | (Ok a, s') => k a s'
    | (Raise e, s') => (Raise e, s')
    end.

Definition lift {S A} (r : result A) : M S A := fun s => (r, s).

Definition get {S} : M S S := fun s => (Ok s, s).

Definition modify {S} (f : S -> S) : M S unit := fun s => (Ok tt, f s).

Declare Scope py_scope.
Delimit Scope py_scope with py.
Notation "x <- c ;; k" := (bind c (fun x => k))
  (at level 100, c at next level, right associativity) : py_scope.
Notation "c ;;; k" := (bind c (fun _ => k))
  (at level 100, right associativity) : py_scope.
Open Scope py_scope.

(** [Series.apply(f)]: [f] on every element, in order; the first exception
    stops the traversal. *)
Fixpoint apply {S A B} (f : A -> M S B) (xs : list A) : M S (list B) :=
  match xs with
  | [] => ret []
  | x :: xs' => y <- f x ;; ys <- apply f xs' ;; ret (y :: ys)
  end.

(** [next(x for x in groups if x is not None)] *)
Definition next_not_None (groups : list (option string)) : result string :=
  match omap id groups with
  | x :: _ => Ok x
  | [] => Raise StopIteration
  end.

(** ** Generic list helpers *)

Fixpoint index_of {A} `{EqDecision A} (x : A) (l : list A) : option nat :=
  match l with
  | [] => None
  | y :: l' => if decide (x = y) then Some 0 else S <$> index_of x l'
  end.

Fixpoint insert_sorted {A} (ltb : A -> A -> bool) `{EqDecision A}
    (x : A) (l : list A) : list A :=
  match l with
  | [] => [x]
  | y :: l' =>
      if decide (x = y) then l
      else if ltb x y then x :: l
      else y :: insert_sorted ltb x l'
  end.

(** The distinct elements of [l], in increasing order. *)
Definition sorted_unique {A} (ltb : A -> A -> bool) `{EqDecision A}
    (l : list A) : list A :=
  foldr (insert_sorted ltb) [] l.

(** ** The weather pipeline *)

Module WeatherDataProcessor.

(** The weather frame, by column.  [Measurement] and [Value] exist only
    once they have been assigned. *)
Record DataFrame : Type := {
  Weather_station_ID : list Z;
  Message : list string;
  Measurement : option (list (option string));
  Value : option (list (option Q))
}.

(** What [calculate_means] returns: the unstacked group means, stations as
    rows, measurement kinds as columns, [None] for a NaN cell. *)
Record MeansFrame : Type := {
  index : list Z;
  columns : list string;
  data : list (list (option Q))
}.

Section Processor.

(** [re.search(pattern, message)]: the groups of the leftmost match if
    there is one; and Python's [float(text)], [None] where it raises
    [ValueError]. *)
Variable pattern : Type.
Variable re_search : pattern -> string -> result (option (list (option string))).
Variable float : string -> option Q.

(** [read_from_web_CSV(URL)] of [data_ingestion.py]: the parsed frame, or
    the exception it re-raises. *)
Variable read_from_web_CSV : string -> result DataFrame.

Record t : Type := {
  weather_station_data : string;
  patterns : list (string * pattern);
  weather_df : option DataFrame;
  logger : list log_record
}.

Definition init (weather_csv_path : string)
    (regex_patterns : list (string * pattern)) : t :=
  {| weather_station_data := weather_csv_path;
     patterns := regex_patterns;
     weather_df := None;
     logger := [] |}.

Definition logged (lvl : level) (msg : string) (self : t) : t :=
  {| weather_station_data := weather_station_data self;
     patterns := patterns self;
     weather_df := weather_df self;
     logger := logger self ++ [(lvl, msg)] |}.

(** [self.logger.debug(msg)], [.info(msg)], [.warning(msg)] *)
Definition log (lvl : level) (msg : string) : M t unit :=
  modify (logged lvl msg).

Definition with_weather_df (df : option DataFrame) (self : t) : t :=
  {| weather_station_data := weather_station_data self;
     patterns := patterns self;
     weather_df := df;
     logger := logger self |}.

Definition set_weather_df (df : option DataFrame) : M t unit :=
  modify (with_weather_df df).

Definition float_of (x : string) : result Q :=
  match float x with
  | Some v => Ok v
  | None => Raise ValueError
  end.

(** The [for key, pattern in self.patterns.items()] loop. *)
Fixpoint extract_loop (items : list (string * pattern)) (message : string)
    : M t (option string * option Q) :=
  match items with
  | (key, pat) :: rest =>
      m <- lift (re_search pat message) ;;
      match m with
      | Some groups =>
          log DEBUG ("Measurement extracted: " +:+ key) ;;;
          x <- lift (next_not_None groups) ;;
          v <- lift (float_of x) ;;
          ret (Some key, Some v)
      | None => extract_loop rest message
      end
  | [] =>
      log DEBUG "No measurement match found." ;;;
      ret (None, None)
  end.

Definition extract_measurement (message : string)
    : M t (option string * option Q) :=
  self <- get ;; extract_loop (patterns self) message.

(** No pattern of [items] matches [message]. *)
Definition unmatched (items : list (string * pattern)) (message : string) : Prop :=
  Forall (fun item => re_search item.2 message = Ok None) items.

(** The two-target assignment from [zip] of the unpacked [result]: it
    raises [ValueError] when [result] is empty, because [zip] of no
    argument yields nothing to unpack. *)
Definition unzip_pairs {A B} (pairs : list (A * B)) : result (list A * list B) :=
  match pairs with
  | [] => Raise ValueError
  | _ :: _ => Ok (pairs.*1, pairs.*2)
  end.

Definition weather_station_mapping : M t unit :=
  self <- get ;;
  df <- lift (read_from_web_CSV (weather_station_data self)) ;;
  set_weather_df (Some df) ;;;
  log INFO "Successfully loaded weather station data from the web.".

Definition process_messages : M t (option DataFrame) :=
  self <- get ;;
  match weather_df self with
  | Some df =>
      result <- apply extract_measurement (Message df) ;;
      cols <- lift (unzip_pairs result) ;;
      set_weather_df (Some {| Weather_station_ID := Weather_station_ID df;
                              Message := Message df;
                              Measurement := Some cols.1;
                              Value := Some cols.2 |}) ;;;
      log INFO "Messages processed and measurements extracted."
  | None =>
      log WARNING "weather_df is not initialized, skipping message processing."
  end ;;;
  self' <- get ;;
  ret (weather_df self').

(** The rows [groupby] sees: station, measurement kind and value, one
    triple per record. *)
Definition group_rows (df : DataFrame)
    : result (list (Z * option string * option Q)) :=
  match Measurement df with
  | None => Raise (KeyError "Measurement")
  | Some ms =>
      match Value df with
      | None => Raise (KeyError "Column not found: Value")
      | Some vs => Ok (zip (zip (Weather_station_ID df) ms) vs)
      end
  end.

Definition key_of (row : Z * option string * option Q) : option (Z * string) :=
  pair row.1.1 <$> row.1.2.

Definition key_ltb (a b : Z * string) : bool :=
  (a.1 <? b.1)%Z || ((a.1 =? b.1)%Z && String.ltb a.2 b.2).

(** The [Value] entries of the rows whose key is [key], in row order. *)
Definition group_values (key : Z * string)
    (rows : list (Z * option string * option Q)) : list (option Q) :=
  snd <$> filter (fun row => key_of row = Some key) rows.

Definition mean (xs : list Q) : Q :=
  (foldr Qplus 0 xs / inject_Z (Z.of_nat (length xs)))%Q.

(** [Series.mean()] skips missing values and is NaN when none is left. *)
Definition nanmean (vs : list (option Q)) : option Q :=
  match omap id vs with
  | [] => None
  | x :: xs => Some (mean (x :: xs))
  end.

(** [groupby(by=[...])["Value"].mean()]: rows with a missing key are
    dropped, the remaining keys are sorted. *)
Definition groupby_mean (rows : list (Z * option string * option Q))
    : list ((Z * string) * option Q) :=
  (fun key => (key, nanmean (group_values key rows)))
    <$> sorted_unique key_ltb (omap key_of rows).

Fixpoint assoc {K V} `{EqDecision K} (k : K) (l : list (K * V)) : option V :=
  match l with
  | [] => None
  | (k', v) :: l' => if decide (k = k') then Some v else assoc k l'
  end.

(** [Series.unstack()]: the inner index level becomes the columns; a
    (row, column) pair without an entry is NaN. *)
Definition unstack (means : list ((Z * string) * option Q)) : MeansFrame :=
  let idx := sorted_unique Z.ltb (means.*1.*1) in
  let cols := sorted_unique String.ltb (means.*1.*2) in
  {| index := idx;
     columns := cols;
     data := (fun s => (fun k => mjoin (assoc (s, k) means)) <$> cols) <$> idx |}.

Definition calculate_means : M t (option MeansFrame) :=
  self <- get ;;
  match weather_df self with
  | Some df =>
      rows <- lift (group_rows df) ;;
      let means := groupby_mean rows in
      log INFO "Mean values calculated." ;;;
      ret (Some (unstack means))
  | None =>
      log WARNING "weather_df is not initialized, cannot calculate means." ;;;
      ret None
  end.

Definition process : M t unit :=
  weather_station_mapping ;;;
  process_messages ;;;
  log INFO "Data processing completed.".

End Processor.

Arguments t : clear implicits.
Arguments weather_df {pattern} _.
Arguments patterns {pattern} _.
Arguments logger {pattern} _.
Arguments weather_station_data {pattern} _.
Arguments init {pattern} _ _.
Arguments log {pattern} _ _.
Arguments logged {pattern} _ _ _.
Arguments with_weather_df {pattern} _ _.
Arguments set_weather_df {pattern} _.
Arguments extract_loop {pattern} _ _ _ _.
Arguments extract_measurement {pattern} _ _ _.
Arguments unmatched {pattern} _ _ _.
Arguments process_messages {pattern} _ _.
Arguments calculate_means {pattern}.
Arguments weather_station_mapping {pattern} _.
Arguments process {pattern} _ _ _.

(** Reading the unstacked frame at a (station, kind) position:
    [None] when the row or column label is absent or the cell is NaN. *)
Definition cell (out : MeansFrame) (station : Z) (kind : string) : option Q :=
  i ← index_of station (index out);
  j ← index_of kind (columns out);
  row ← data out !! i;
  mjoin (row !! j).


(** The records of a frame, row by row. *)
Definition records (df : DataFrame) : list (Z * string) :=
  zip (Weather_station_ID df) (Message df).

End WeatherDataProcessor.

(** ** The field pipeline *)

Module FieldDataProcessor.

(** A cell of the field frame: missing, a float ([Num], see the
    conventions), text, or a 64-bit integer ([Int], a cell of an [int64]
    column).  A column that pandas reads from a file or a query holds
    integers only, floats and missing cells, or text and missing cells. *)
Inductive cell : Type :=
| NaN
| Num (q : Q)
| Str (s : string)
| Int (z : Z).

(** The least [int64]. *)
Definition int64_min : Z := (- 2 ^ 63)%Z.

(** A frame: its column labels, left to right, and its rows, each with one
    cell per label. *)
Record DataFrame : Type := {
  columns : list string;
  rows : list (list cell)
}.

Definition well_formed (df : DataFrame) : Prop :=
  Forall (fun row => length row = length (columns df)) (rows df).

Fixpoint traverse {A B} (f : A -> result B) (xs : list A) : result (list B) :=
  match xs with
  | [] => Ok []
  | x :: xs' =>
      match f x with
      | Ok y =>
          match traverse f xs' with
          | Ok ys => Ok (y :: ys)
          | Raise e => Raise e
          end
      | Raise e => Raise e
      end
  end.

(** [df[label]] *)
Definition getitem (df : DataFrame) (label : string) : result (list cell) :=
  match index_of label (columns df) with
  | Some i => Ok ((fun row => default NaN (row !! i)) <$> rows df)
  | None => Raise (KeyError label)
  end.

(** [df[label] = values]: overwrite the column in place, or append it. *)
Definition setitem (df : DataFrame) (label : string) (values : list cell)
    : DataFrame :=
  match index_of label (columns df) with
  | Some i =>
      {| columns := columns df;
         rows := zip_with (fun row v => <[i := v]> row) (rows df) values |}
  | None =>
      {| columns := columns df ++ [label];
         rows := zip_with (fun row v => row ++ [v]) (rows df) values |}
  end.

(** [df.rename(columns=mapper)]: every label that is a key of [mapper] is
    replaced, all at once; the cells stay where they are. *)
Definition rename (mapper : gmap string string) (df : DataFrame) : DataFrame :=
  {| columns := (fun label => default label (mapper !! label)) <$> columns df;
     rows := rows df |}.

(** [Series.abs()]: a missing cell stays missing and text has no absolute
    value.  On [int64], numpy's [absolute] wraps around: the least integer
    has no positive counterpart and comes out as it went in. *)
Definition abs_cell (c : cell) : result cell :=
  match c with
  | NaN => Ok NaN
  | Num q => Ok (Num (Qabs q))
  | Str _ => Raise TypeError
  | Int z => Ok (Int (if (z =? int64_min)%Z then z else Z.abs z))
  end.

(** [values_to_rename.get(crop, crop)] *)
Definition get_or_self (values_to_rename : gmap string string) (crop : cell)
    : cell :=
  match crop with
  | Str s =>
      match values_to_rename !! s with
      | Some canonical => Str canonical
      | None => crop
      end
  | _ => crop
  end.

(** Equality of join keys; missing keys match each other, and an
    integer matches the float of the same value. *)
Definition key_eqb (a b : cell) : bool :=
  match a, b with
  | NaN, NaN => true
  | Num x, Num y => Qeq_bool x y
  | Str x, Str y => String.eqb x y
  | Int x, Int y => (x =? y)%Z
  | Int x, Num y => Qeq_bool (inject_Z x) y
  | Num x, Int y => Qeq_bool x (inject_Z y)
  | _, _ => false
  end.

Definition is_text (c : cell) : bool :=
  match c with
  | Str _ => true
  | _ => false
  end.

(** How pandas holds a key column: as numbers when it has cells and none
    is text, as text when it has text and no number. *)
Definition numeric (col : list cell) : bool :=
  match col with
  | [] => false
  | _ :: _ => forallb (fun c => negb (is_text c)) col
  end.

Definition textual (col : list cell) : bool :=
  existsb is_text col
  && forallb (fun c => match c with Num _ | Int _ => false | _ => true end) col.

(** A cell of an [int64] column once the column has to hold a missing
    value: the column becomes [float64]. *)
Definition upcast (c : cell) : cell :=
  match c with
  | Int z => Num (inject_Z z)
  | _ => c
  end.

Definition suffixed (on suffix : string) (others : list string)
    (label : string) : string :=
  if decide (label ≠ on ∧ label ∈ others) then label +:+ suffix else label.

(** [left.merge(right, on=on, how="left")]: every left row, in order,
    once per right row with an equal key, or once with missing cells for
    the right columns when there is none.  The key column is kept once;
    other labels present on both sides get [_x] and [_y].

    A key label that a side carries twice is ambiguous, and text keys do
    not merge with numeric keys: [ValueError].  As soon as one left row
    has no partner the right columns hold missing cells, and their
    integers come out as floats ([fill]). *)
Definition matches (kl kr : nat) (right_rows : list (list cell))
    (lrow : list cell) : list (list cell) :=
  filter (fun rrow => key_eqb (default NaN (lrow !! kl))
                              (default NaN (rrow !! kr)) = true) right_rows.

(** The cells a right row contributes to an output row. *)
Definition station_cells (kr : nat) (fill : bool) (rrow : list cell) : list cell :=
  if fill then upcast <$> delete kr rrow else delete kr rrow.

Definition joined (kl kr width : nat) (fill : bool) (right_rows : list (list cell))
    (lrow : list cell) : list (list cell) :=
  match matches kl kr right_rows lrow with
  | [] => [lrow ++ replicate width NaN]
  | rrow :: rrows => (fun rrow => lrow ++ station_cells kr fill rrow) <$> rrow :: rrows
  end.

(** Some left row has no right row of its key. *)
Definition some_unmatched (kl kr : nat) (left_rows right_rows : list (list cell))
    : bool :=
  existsb (fun lrow => match matches kl kr right_rows lrow with
                       | [] => true
                       | _ :: _ => false
                       end) left_rows.

Definition key_column (k : nat) (rows : list (list cell)) : list cell :=
  (fun row => default NaN (row !! k)) <$> rows.

Definition incompatible (lkeys rkeys : list cell) : bool :=
  (numeric lkeys && textual rkeys) || (textual lkeys && numeric rkeys).

Definition merge (left right : DataFrame) (on : string) : result DataFrame :=
  match index_of on (columns left), index_of on (columns right) with
  | Some kl, Some kr =>
      if decide (on ∈ delete kl (columns left) ∨ on ∈ delete kr (columns right))
      then Raise ValueError
      else if incompatible (key_column kl (rows left)) (key_column kr (rows right))
      then Raise ValueError
      else
        let right_labels := delete kr (columns right) in
        let fill := some_unmatched kl kr (rows left) (rows right) in
        Ok {| columns :=
                (suffixed on "_x" right_labels <$> columns left)
                ++ (suffixed on "_y" (columns left) <$> right_labels);
              rows :=
                rows left
                ≫= joined kl kr (length right_labels) fill (rows right) |}
  | _, _ => Raise (KeyError on)
  end.

(** The frames the merge is specified on: one cell per label in every
    row, no label twice on a side, the key on both sides and no other
    label on both, and no text among the keys. *)
Definition joinable (left right : DataFrame) (on : string) : Prop :=
  (well_formed left) /\ (well_formed right) /\
  (NoDup (columns left)) /\ (NoDup (columns right)) /\
  (on ∈ columns left) /\ (on ∈ columns right) /\
  (forall label, label ∈ columns left -> label ∈ columns right -> label = on) /\
  (Forall (fun row => forall k, index_of on (columns left) = Some k ->
                      is_text (default NaN (row !! k)) = false) (rows left)) /\
  (Forall (fun row => forall k, index_of on (columns right) = Some k ->
                      is_text (default NaN (row !! k)) = false) (rows right)).

(** [df.drop(columns=label)] *)
Definition drop (df : DataFrame) (label : string) : result DataFrame :=
  if decide (label ∈ columns df) then
    let keep (row : list cell) :=
      (filter (fun p => p.1 ≠ label) (zip (columns df) row)).*2 in
    Ok {| columns := filter (fun l => l ≠ label) (columns df);
          rows := keep <$> rows df |}
  else Raise (KeyError label).

(** How many labels are at least as long as [temp_name]: it shrinks each
    time the placeholder loop goes round. *)
Definition longer_labels (labels : list string) (temp_name : string) : nat :=
  length (filter (fun label => (String.length temp_name ≤ String.length label)%nat) labels).

(** [while temp_name in self.df.columns: temp_name += "_"] *)
Equations? extend_temp_name (labels : list string) (temp_name : string)
    : string by wf (longer_labels labels temp_name) lt :=
  extend_temp_name labels temp_name with decide (temp_name ∈ labels) => {
    | left _ => extend_temp_name labels (temp_name +:+ "_");
    | right _ => temp_name }.
Proof.
  unfold longer_labels.
  assert (Hlen : String.length (temp_name +:+ "_") = S (String.length temp_name)).
  { clear. induction temp_name as [|c s IH]; simpl; [reflexivity | by rewrite IH]. }
  rewrite Hlen. clear extend_temp_name Hlen.
  induction labels as [|l ls IH]; [by apply elem_of_nil in e |].
  rewrite !filter_cons.
  apply elem_of_cons in e as [<- | Hin].
  - rewrite decide_False by lia. rewrite decide_True by lia. simpl.
    apply Nat.lt_succ_r.
    clear. induction ls as [|x xs IHxs]; simpl; [lia |].
    rewrite !filter_cons. repeat case_decide; simpl; lia.
  - specialize (IH Hin). repeat case_decide; simpl; lia.
Qed.

(** [temp_name] after [k] rounds of the loop body. *)
Fixpoint extended (temp_name : string) (k : nat) : string :=
  match k with
  | O => temp_name
  | S k' => extended (temp_name +:+ "_") k'
  end.

(** The label a column is expected under once [column1] and [column2]
    have been exchanged. *)
Definition swap_label (column1 column2 label : string) : string :=
  if decide (label = column1) then column2
  else if decide (label = column2) then column1
  else label.

Section Processor.

(** The collaborators of [data_ingestion.py]. *)
Variable engine : Type.
Variable create_db_engine : string -> result engine.
Variable query_data : engine -> string -> result DataFrame.
Variable read_from_web_CSV : string -> result DataFrame.

Record t : Type := {
  db_path : string;
  sql_query : string;
  columns_to_rename : list (string * string);
  values_to_rename : gmap string string;
  weather_map_data : string;
  df : option DataFrame;
  logger : list log_record
}.

Definition logged (lvl : level) (msg : string) (self : t) : t :=
  {| db_path := db_path self;
     sql_query := sql_query self;
     columns_to_rename := columns_to_rename self;
     values_to_rename := values_to_rename self;
     weather_map_data := weather_map_data self;
     df := df self;
     logger := logger self ++ [(lvl, msg)] |}.

Definition log (lvl : level) (msg : string) : M t unit :=
  modify (logged lvl msg).

Definition with_df (frame : DataFrame) (self : t) : t :=
  {| db_path := db_path self;
     sql_query := sql_query self;
     columns_to_rename := columns_to_rename self;
     values_to_rename := values_to_rename self;
     weather_map_data := weather_map_data self;
     df := Some frame;
     logger := logger self |}.

Definition set_df (frame : DataFrame) : M t unit :=
  modify (with_df frame).

(** Reading [self.df] to call a method on it: [None] has none. *)
Definition the_df : M t DataFrame :=
  self <- get ;;
  match df self with
  | Some frame => ret frame
  | None => raise AttributeError
  end.

(** Reading [self.df] to subscript it: [None] is not subscriptable. *)
Definition df_to_subscript : M t DataFrame :=
  self <- get ;;
  match df self with
  | Some frame => ret frame
  | None => raise TypeError
  end.

(** [list(...)[0]] *)
Definition first {A} (l : list A) : result A :=
  match l with
  | x :: _ => Ok x
  | [] => Raise IndexError
  end.

Definition ingest_sql_data : M t unit :=
  self <- get ;;
  eng <- lift (create_db_engine (db_path self)) ;;
  frame <- lift (query_data eng (sql_query self)) ;;
  set_df frame ;;;
  log INFO "Successfully loaded data.".

Definition rename_columns : M t unit :=
  self <- get ;;
  column1 <- lift (first (columns_to_rename self).*1) ;;
  column2 <- lift (first (columns_to_rename self).*2) ;;
  frame <- the_df ;;
  let temp_name := extend_temp_name (columns frame) "__temp_name_for_swap__" in
  set_df (rename (<[column2 := column1]> (<[column1 := temp_name]> ∅)) frame) ;;;
  frame' <- the_df ;;
  set_df (rename {[temp_name := column2]} frame') ;;;
  log INFO ("Swapped columns: " +:+ column1 +:+ " with " +:+ column2).

Definition apply_corrections (column_name abs_column : string) : M t unit :=
  self <- get ;;
  frame <- df_to_subscript ;;
  elevations <- lift (getitem frame abs_column) ;;
  corrected <- lift (traverse abs_cell elevations) ;;
  set_df (setitem frame abs_column corrected) ;;;
  frame' <- df_to_subscript ;;
  crops <- lift (getitem frame' column_name) ;;
  set_df (setitem frame' column_name
            (get_or_self (values_to_rename self) <$> crops)).

Definition weather_station_mapping : M t unit :=
  self <- get ;;
  weather_map_df <- lift (read_from_web_CSV (weather_map_data self)) ;;
  frame <- the_df ;;
  merged <- lift (merge frame weather_map_df "Field_ID") ;;
  set_df merged.

Definition process : M t unit :=
  ingest_sql_data ;;;
  rename_columns ;;;
  apply_corrections "Crop_type" "Elevation" ;;;
  weather_station_mapping ;;;
  frame <- the_df ;;
  dropped <- lift (drop frame "Unnamed: 0") ;;
  set_df dropped.

End Processor.

Arguments ingest_sql_data {engine} _ _.
Arguments process {engine} _ _ _.

(** The cell of row [r] under [label] (the first column so labelled). *)
Definition at_label (frame : DataFrame) (r : nat) (label : string) : option cell :=
  i ← index_of label (columns frame);
  row ← rows frame !! r;
  row !! i.

End FieldDataProcessor.

(** ** Logger set-up

    [initialize_logging] is the same method in both processors.  It
    configures the logger that [logging.getLogger] keeps under the
    processor's name, one object shared by every instance of the class;
    the configuration is what this module models (the [logger] field of a
    processor records the calls made, whatever the configuration). *)

Module logging_setup.

Inductive handler : Type :=
| StreamHandler (format : string).

Record Logger : Type := {
  propagate : bool;
  disabled : bool;
  threshold : option level;
  handlers : list handler
}.

(** The logger [logging.getLogger] creates for a new name. *)
Definition getLogger : Logger :=
  {| propagate := true; disabled := false; threshold := None; handlers := [] |}.

(** [str.upper()], on ASCII letters. *)
Definition upper_char (c : Ascii.ascii) : Ascii.ascii :=
  let n := Ascii.N_of_ascii c in
  if ((97 <=? n) && (n <=? 122))%N then Ascii.ascii_of_N (n - 32) else c.

Fixpoint upper (s : string) : string :=
  match s with
  | EmptyString => EmptyString
  | String c s' => String (upper_char c) (upper s')
  end.

Definition initialize_logging (logging_level : string) (logger : Logger) : Logger :=
  let logger := {| propagate := false;
                   disabled := disabled logger;
                   threshold := threshold logger;
                   handlers := handlers logger |} in
  let set_up (log_level : level) :=
    {| propagate := propagate logger;
       disabled := disabled logger;
       threshold := Some log_level;
       handlers :=
         match handlers logger with
         | [] => [StreamHandler "%(asctime)s - %(name)s - %(levelname)s - %(message)s"]
         | _ :: _ => handlers logger
         end |} in
  if String.eqb (upper logging_level) "DEBUG" then set_up DEBUG
  else if String.eqb (upper logging_level) "INFO" then set_up INFO
  else if String.eqb (upper logging_level) "NONE" then
    {| propagate := propagate logger;
       disabled := true;
       threshold := threshold logger;
       handlers := handlers logger |}
  else set_up INFO.

(** The processors created one after the other, each with its level. *)
Definition instances (logging_levels : list string) (logger : Logger) : Logger :=
  foldl (fun logger logging_level => initialize_logging logging_level logger)
        logger logging_levels.

End logging_setup.

(** ** The ingestion helpers

    [data_ingestion.py] wraps three library calls in [try]/[except] blocks
    that log to the module logger and raise again.  The library calls are
    parameters: what they return or the exception they raise. *)

Module data_ingestion.

(** [df.empty]: no row or no column. *)
Definition empty (df : FieldDataProcessor.DataFrame) : bool :=
  match FieldDataProcessor.rows df, FieldDataProcessor.columns df with
  | [], _ => true
  | _, [] => true
  | _, _ => false
  end.

Section Library.

(** The exceptions sqlalchemy and pandas raise; [str e] is the text an
    f-string shows and the four predicates are the [isinstance] tests of
    the [except] clauses. *)
Variable exc : Type.
Variable str : exc -> string.
Variable is_ImportError : exc -> bool.
Variable is_ValueError : exc -> bool.
Variable is_EmptyDataError : exc -> bool.
Variable is_Exception : exc -> bool.

(** What leaves a function of the module: an exception of the library,
    the [ValueError] that [query_data] builds, or the failed read of a
    local variable. *)
Inductive exception : Type :=
| Library (e : exc)
| NewValueError (msg : string)
| UnboundLocalError (name : string).

Inductive outcome (A : Type) : Type :=
| Returned (a : A)
| Raised (e : exception).
Arguments Returned {A} a.
Arguments Raised {A} e.

(** A computation that logs to the module logger. *)
Definition logging (A : Type) : Type :=
  list log_record -> outcome A * list log_record.

Definition text (e : exception) : string :=
  match e with
  | Library e => str e
  | NewValueError msg => msg
  | UnboundLocalError name => "local variable '" +:+ name +:+ "' referenced before assignment"
  end.

Definition ValueError_instance (e : exception) : bool :=
  match e with
  | Library e => is_ValueError e
  | NewValueError _ => true
  | UnboundLocalError _ => false
  end.

Definition EmptyDataError_instance (e : exception) : bool :=
  match e with
  | Library e => is_EmptyDataError e
  | _ => false
  end.

Definition ImportError_instance (e : exception) : bool :=
  match e with
  | Library e => is_ImportError e
  | _ => false
  end.

Definition Exception_instance (e : exception) : bool :=
  match e with
  | Library e => is_Exception e
  | _ => true
  end.

Definition called {A} (r : exc + A) : logging A :=
  fun logger =>
    match r with
    | inr a => (Returned a, logger)
    | inl e => (Raised (Library e), logger)
    end.

Definition emit {A} (lvl : level) (msg : string) (next : logging A) : logging A :=
  fun logger => next (logger ++ [(lvl, msg)]).

Definition and_then {A B} (c : logging A) (k : A -> logging B) : logging B :=
  fun logger =>
    match c logger with
    | (Returned a, logger') => k a logger'
    | (Raised e, logger') => (Raised e, logger')
    end.

(** [try: body  except C1 as e: h1  except C2 as e: h2]: the first clause
    whose class the exception is an instance of handles it; with none it
    goes on unhandled. *)
Fixpoint dispatch {A} (clauses : list ((exception -> bool) * (exception -> logging A)))
    (e : exception) : logging A :=
  match clauses with
  | (instance, handler) :: rest =>
      if instance e then handler e else dispatch rest e
  | [] => fun logger => (Raised e, logger)
  end.

Definition try_except {A} (body : logging A)
    (clauses : list ((exception -> bool) * (exception -> logging A))) : logging A :=
  fun logger =>
    match body logger with
    | (Returned a, logger') => (Returned a, logger')
    | (Raised e, logger') => dispatch clauses e logger'
    end.

Definition returning {A} (a : A) : logging A := fun logger => (Returned a, logger).

Definition raising {A} (e : exception) : logging A := fun logger => (Raised e, logger).

Variable engine : Type.
Variable create_engine : string -> exc + engine.

(** [with engine.connect() as ...]: the exception opening the connection
    raises, if any. *)
Variable connect : engine -> option exc.
Variable read_sql_query : engine -> string -> exc + FieldDataProcessor.DataFrame.

Definition connected (eng : engine) : logging unit :=
  called (match connect eng with Some e => inl e | None => inr tt end).

(** In the [ImportError] clause [e] is a local name no clause has bound
    yet: [raise e] fails on reading it. *)
Definition create_db_engine (db_path : string) : logging engine :=
  try_except
    (and_then (called (create_engine db_path)) (fun eng =>
     and_then (connected eng) (fun _ =>
     emit INFO "Database engine created successfully." (returning eng))))
    [(ImportError_instance,
      fun _ =>
        emit ERROR "SQLAlchemy is required to use this function. Please install it first."
          (raising (UnboundLocalError "e")));
     (Exception_instance,
      fun e =>
        emit ERROR ("Failed to create database engine. Error: " +:+ text e)
          (raising e))].

Definition query_data (eng : engine) (sql_query : string)
    : logging FieldDataProcessor.DataFrame :=
  try_except
    (and_then (connected eng) (fun _ =>
     and_then (called (read_sql_query eng sql_query)) (fun df =>
     if empty df then
       let msg := "The query returned an empty DataFrame." in
       emit ERROR msg (raising (NewValueError msg))
     else
       emit INFO "Query executed successfully." (returning df))))
    [(ValueError_instance,
      fun e =>
        emit ERROR ("SQL query failed. Error: " +:+ text e) (raising e));
     (Exception_instance,
      fun e =>
        emit ERROR ("An error occurred while querying the database. Error: "
                    +:+ text e)
          (raising e))].

Section Csv.

Variable Frame : Type.
Variable read_csv : string -> exc + Frame.

Definition read_from_web_CSV (URL : string) : logging Frame :=
  try_except
    (and_then (called (read_csv URL)) (fun df =>
     emit INFO "CSV file read successfully from the web." (returning df)))
    [(EmptyDataError_instance,
      fun e =>
        emit ERROR "The URL does not point to a valid CSV file. Please check the URL and try again."
          (raising e));
     (Exception_instance,
      fun e =>
        emit ERROR ("Failed to read CSV from the web. Error: " +:+ text e)
          (raising e))].

End Csv.

End Library.

Arguments Library {exc} e.
Arguments NewValueError {exc} msg.
Arguments UnboundLocalError {exc} name.
Arguments Returned {exc A} a.
Arguments Raised {exc A} e.

End data_ingestion.

(** ** The validation tests

    [validate_data.py]: each test is a function of what the fixture
    yields, the weather frame and the field frame read back from their
    files, in that order. *)

Module validate_data.
Import FieldDataProcessor.

Inductive verdict : Type :=
| Passed
| AssertionFailed (msg : string)
| Errored (e : exn).

Definition assert (condition : bool) (msg : string) (next : verdict) : verdict :=
  if condition then next else AssertionFailed msg.

(** [set.issubset(df.columns)] *)
Definition issubset (expected labels : list string) : bool :=
  forallb (fun label => bool_decide (label ∈ labels)) expected.

(** [series >= 0], cell by cell: a missing cell compares false, text
    cannot be compared with a number. *)
Definition ge_zero (c : cell) : result bool :=
  match c with
  | NaN => Ok false
  | Num q => Ok (Qle_bool 0 q)
  | Str _ => Raise TypeError
  | Int z => Ok (0 <=? z)%Z
  end.

(** [series.notnull()] *)
Definition notnull (c : cell) : bool :=
  match c with
  | NaN => false
  | _ => true
  end.

(** [series.isin(values)] *)
Definition isin (values : list string) (c : cell) : bool :=
  match c with
  | Str s => bool_decide (s ∈ values)
  | _ => false
  end.

Definition all (bs : list bool) : bool := forallb id bs.

Definition test_read_weather_DataFrame_shape
    (setup_and_teardown : DataFrame * DataFrame) : verdict :=
  let '(weather_df, _) := setup_and_teardown in
  assert (0 <? length (rows weather_df))%nat
    "Weather DataFrame should have at least one row." Passed.

Definition test_read_field_DataFrame_shape
    (setup_and_teardown : DataFrame * DataFrame) : verdict :=
  let '(_, field_df) := setup_and_teardown in
  assert (0 <? length (rows field_df))%nat
    "Field DataFrame should have at least one row." Passed.

Definition test_weather_DataFrame_columns
    (setup_and_teardown : DataFrame * DataFrame) : verdict :=
  let '(weather_df, _) := setup_and_teardown in
  let expected_columns :=
    ["Weather_station_ID"; "Message"; "Measurement"; "Value"] in
  assert (issubset expected_columns (columns weather_df))
    "Weather DataFrame does not contain expected columns." Passed.

Definition test_field_DataFrame_columns
    (setup_and_teardown : DataFrame * DataFrame) : verdict :=
  let '(_, field_df) := setup_and_teardown in
  let expected_columns :=
    ["Field_ID"; "Elevation"; "Latitude"; "Longitude"; "Location"; "Slope";
     "Rainfall"; "Min_temperature_C"; "Max_temperature_C"; "Ave_temps";
     "Soil_fertility"; "Soil_type"; "pH"; "Pollution_level"; "Plot_size";
     "Annual_yield"; "Crop_type"; "Standard_yield"; "Weather_station"] in
  assert (issubset expected_columns (columns field_df))
    "Field DataFrame does not contain expected columns." Passed.

Definition test_field_DataFrame_non_negative_elevation
    (setup_and_teardown : DataFrame * DataFrame) : verdict :=
  let '(_, field_df) := setup_and_teardown in
  match getitem field_df "Elevation" with
  | Raise e => Errored e
  | Ok elevations =>
      match traverse ge_zero elevations with
      | Raise e => Errored e
      | Ok flags => assert (all flags) "Elevation values must be non-negative." Passed
      end
  end.

Definition test_crop_types_are_valid
    (setup_and_teardown : DataFrame * DataFrame) : verdict :=
  let '(_, field_df) := setup_and_teardown in
  let valid_crop_types :=
    ["cassava"; "tea"; "wheat"; "potato"; "banana"; "coffee"; "rice";
     "maize"; "wheat "; "tea "; "cassava "] in
  match getitem field_df "Crop_type" with
  | Raise e => Errored e
  | Ok crops =>
      assert (all (isin valid_crop_types <$> crops))
        "Field DataFrame contains invalid crop types." Passed
  end.

(** The test binds the first frame the fixture yields to [field_df]. *)
Definition test_positive_rainfall_values
    (setup_and_teardown : DataFrame * DataFrame) : verdict :=
  let '(field_df, _) := setup_and_teardown in
  assert (bool_decide ("Rainfall" ∈ columns field_df))
    "Rainfall column is missing from field_df."
    match getitem field_df "Rainfall" with
    | Raise e => Errored e
    | Ok rainfall =>
        assert (all (notnull <$> rainfall)) "Rainfall column contains NaN values."
          match traverse ge_zero rainfall with
          | Raise e => Errored e
          | Ok flags => assert (all flags) "Rainfall values must be non-negative." Passed
          end
    end.

End validate_data.

(** ** A sample configuration

    Concrete collaborators to run the pipelines on.  [NumberBefore u] is
    the regular expression [([0-9.]+)] followed by the literal [u] (one
    capturing group; [u] starts with neither a digit nor a dot), [Word w]
    the literal [w] (no capturing group) and [Malformed] a pattern [re]
    rejects.  [decimal] is [float] on the texts such a group captures
    (digits and dots). *)

Module Sample.

Inductive pattern : Type :=
| NumberBefore (unit : string)
| Word (w : string)
| Malformed.

Definition is_number_char (c : Ascii.ascii) : bool :=
  let n := Ascii.N_of_ascii c in
  ((48 <=? n) && (n <=? 57) || (n =? 46))%N.

(** The leftmost run of number characters that [unit] follows. *)
Fixpoint scan (unit run s : string) : option string :=
  match s with
  | EmptyString =>
      if negb (String.eqb run "") && String.prefix unit s then Some run else None
  | String c s' =>
      if is_number_char c then scan unit (run +:+ String c "") s'
      else if negb (String.eqb run "") && String.prefix unit s then Some run
      else scan unit "" s'
  end.

Fixpoint contains (w s : string) : bool :=
  String.prefix w s ||
  match s with
  | EmptyString => false
  | String _ s' => contains w s'
  end.

Definition re_search (p : pattern) (message : string)
    : result (option (list (option string))) :=
  match p with
  | NumberBefore unit => Ok ((fun run => [Some run]) <$> scan unit "" message)
  | Word w => Ok (if contains w message then Some [] else None)
  | Malformed => Raise ReError
  end.

(** Digits with at most one dot and at least one digit. *)
Fixpoint decimal_from (s : string) (num : Z) (places : option nat)
    (digits : bool) : option Q :=
  match s with
  | EmptyString =>
      if digits then Some (Qmake num (Z.to_pos (10 ^ Z.of_nat (default 0%nat places))))
      else None
  | String c s' =>
      let n := Ascii.N_of_ascii c in
      if ((48 <=? n) && (n <=? 57))%N then
        decimal_from s' (10 * num + Z.of_N (n - 48))%Z (S <$> places) true
      else if (n =? 46)%N then
        match places with
        | None => decimal_from s' num (Some 0%nat) digits
        | Some _ => None
        end
      else None
  end.

Definition decimal (s : string) : option Q := decimal_from s 0%Z None false.

Definition regex_patterns : list (string * pattern) :=
  [("rainfall", NumberBefore "mm");
   ("temperature", NumberBefore "C");
   ("humidity", NumberBefore "%")].

(** The weather file as fetched: three messages, not yet processed. *)
Definition weather_source (URL : string) : result WeatherDataProcessor.DataFrame :=
  Ok {| WeatherDataProcessor.Weather_station_ID := [1; 1; 2]%Z;
        WeatherDataProcessor.Message := ["temp: 23.4C"; "24.6C"; "rainfall heavy"];
        WeatherDataProcessor.Measurement := None;
        WeatherDataProcessor.Value := None |}.

(** A source that cannot be reached, and one that serves a file with a
    header and no record. *)
Definition weather_unreachable (URL : string)
    : result WeatherDataProcessor.DataFrame :=
  Raise SourceError.

Definition weather_header_only (URL : string)
    : result WeatherDataProcessor.DataFrame :=
  Ok {| WeatherDataProcessor.Weather_station_ID := [];
        WeatherDataProcessor.Message := [];
        WeatherDataProcessor.Measurement := None;
        WeatherDataProcessor.Value := None |}.

(** A processor over the table [items] holding [df]. *)
Definition weather (items : list (string * pattern))
    (df : option WeatherDataProcessor.DataFrame)
    : WeatherDataProcessor.t pattern :=
  WeatherDataProcessor.with_weather_df df
    (WeatherDataProcessor.init "weather.csv" items).

Definition raw (stations : list Z) (messages : list string)
    : WeatherDataProcessor.DataFrame :=
  {| WeatherDataProcessor.Weather_station_ID := stations;
     WeatherDataProcessor.Message := messages;
     WeatherDataProcessor.Measurement := None;
     WeatherDataProcessor.Value := None |}.

(** A frame after extraction. *)
Definition extracted (stations : list Z) (messages : list string)
    (kinds : list (option string)) (values : list (option Q))
    : WeatherDataProcessor.DataFrame :=
  {| WeatherDataProcessor.Weather_station_ID := stations;
     WeatherDataProcessor.Message := messages;
     WeatherDataProcessor.Measurement := Some kinds;
     WeatherDataProcessor.Value := Some values |}.

(** Two field records as ingested: crop names sit under [Annual_yield]
    and yields under [Crop_type]; field 7 has a negative elevation and a
    misspelt crop. *)
Definition fields : FieldDataProcessor.DataFrame :=
  {| FieldDataProcessor.columns :=
       ["Field_ID"; "Elevation"; "Annual_yield"; "Crop_type"];
     FieldDataProcessor.rows :=
       [[FieldDataProcessor.Num 7; FieldDataProcessor.Num (-50);
         FieldDataProcessor.Str "cassaval"; FieldDataProcessor.Num (1 # 2)];
        [FieldDataProcessor.Num 8; FieldDataProcessor.Num 120;
         FieldDataProcessor.Str "tea"; FieldDataProcessor.Num (3 # 4)]] |}.

(** The same records once the two labels are exchanged. *)
Definition fields_repaired : FieldDataProcessor.DataFrame :=
  {| FieldDataProcessor.columns :=
       ["Field_ID"; "Elevation"; "Crop_type"; "Annual_yield"];
     FieldDataProcessor.rows := FieldDataProcessor.rows fields |}.

(** The station mapping knows field 8 only. *)
Definition station_mapping : FieldDataProcessor.DataFrame :=
  {| FieldDataProcessor.columns := ["Unnamed: 0"; "Field_ID"; "Weather_station"];
     FieldDataProcessor.rows :=
       [[FieldDataProcessor.Num 0; FieldDataProcessor.Num 8;
         FieldDataProcessor.Num 2]] |}.

(** Records with integer identifiers and elevations in whole metres;
    field 9 carries the least [int64].  The integer mapping knows field 7
    only. *)
Definition surveyed : FieldDataProcessor.DataFrame :=
  {| FieldDataProcessor.columns := ["Field_ID"; "Elevation"; "Crop_type"];
     FieldDataProcessor.rows :=
       [[FieldDataProcessor.Int 7; FieldDataProcessor.Int (-50);
         FieldDataProcessor.Str "cassaval"];
        [FieldDataProcessor.Int 9;
         FieldDataProcessor.Int FieldDataProcessor.int64_min;
         FieldDataProcessor.Str "tea"]] |}.

Definition stations : FieldDataProcessor.DataFrame :=
  {| FieldDataProcessor.columns := ["Unnamed: 0"; "Field_ID"; "Weather_station"];
     FieldDataProcessor.rows :=
       [[FieldDataProcessor.Int 0; FieldDataProcessor.Int 7;
         FieldDataProcessor.Int 2]] |}.

(** A mapping whose identifiers were read as text. *)
Definition station_names : FieldDataProcessor.DataFrame :=
  {| FieldDataProcessor.columns := ["Field_ID"; "Weather_station"];
     FieldDataProcessor.rows :=
       [[FieldDataProcessor.Str "seven"; FieldDataProcessor.Int 2]] |}.

Definition create_db_engine (db_path : string) : result unit := Ok tt.

Definition query_data (engine : unit) (sql_query : string)
    : result FieldDataProcessor.DataFrame :=
  Ok fields.

Definition mapping_source (URL : string) : result FieldDataProcessor.DataFrame :=
  Ok station_mapping.

(** A small library: what sqlalchemy and pandas raise here, and how the
    [except] clauses class it.  [Interrupted] is no [Exception]. *)
Inductive library_error : Type :=
| DriverMissing
| Unreachable
| NoSuchTable
| EmptyFile
| Interrupted.

Definition str (e : library_error) : string :=
  match e with
  | DriverMissing => "No module named 'psycopg2'"
  | Unreachable => "unable to open database file"
  | NoSuchTable => "no such table: nowhere"
  | EmptyFile => "No columns to parse from file"
  | Interrupted => ""
  end.

Definition is_ImportError (e : library_error) : bool :=
  match e with DriverMissing => true | _ => false end.

Definition is_ValueError (e : library_error) : bool :=
  match e with EmptyFile => true | _ => false end.

Definition is_EmptyDataError (e : library_error) : bool :=
  match e with EmptyFile => true | _ => false end.

Definition is_Exception (e : library_error) : bool :=
  match e with Interrupted => false | _ => true end.

Definition create_engine (db_path : string) : library_error + string :=
  if String.prefix "postgresql" db_path then inl DriverMissing else inr db_path.

Definition connect (engine : string) : option library_error :=
  if String.eqb engine "sqlite:///nowhere/farm.db" then Some Unreachable else None.

Definition header_only : FieldDataProcessor.DataFrame :=
  {| FieldDataProcessor.columns := ["Field_ID"; "Elevation"];
     FieldDataProcessor.rows := [] |}.

Definition read_sql_query (engine sql_query : string)
    : library_error + FieldDataProcessor.DataFrame :=
  if String.eqb sql_query "SELECT * FROM nowhere" then inl NoSuchTable
  else if String.eqb sql_query "SELECT * FROM geographic_features WHERE 0"
       then inr header_only
  else inr fields.

Definition read_csv (URL : string)
    : library_error + FieldDataProcessor.DataFrame :=
  if String.eqb URL "mapping.csv" then inr station_mapping
  else if String.eqb URL "headers.csv" then inr header_only
  else if String.eqb URL "nothing.csv" then inl EmptyFile
  else inl Interrupted.

(** The two files the validation fixture reads back. *)
Definition weather_file : FieldDataProcessor.DataFrame :=
  {| FieldDataProcessor.columns :=
       ["Weather_station_ID"; "Message"; "Measurement"; "Value"];
     FieldDataProcessor.rows :=
       [[FieldDataProcessor.Num 1; FieldDataProcessor.Str "temp: 23.4C";
         FieldDataProcessor.Str "temperature"; FieldDataProcessor.Num (234 # 10)]] |}.

Definition field_file : FieldDataProcessor.DataFrame :=
  {| FieldDataProcessor.columns := ["Field_ID"; "Elevation"; "Rainfall"; "Crop_type"];
     FieldDataProcessor.rows :=
       [[FieldDataProcessor.Num 7; FieldDataProcessor.Num 50;
         FieldDataProcessor.Num 1200; FieldDataProcessor.Str "cassava"]] |}.

(** A frame with neither a key nor a crop column. *)
Definition elevations_only : FieldDataProcessor.DataFrame :=
  {| FieldDataProcessor.columns := ["Elevation"];
     FieldDataProcessor.rows :=
       [[FieldDataProcessor.Num (-50)]; [FieldDataProcessor.Num 120]] |}.

Definition mapping_unreachable (URL : string)
    : result FieldDataProcessor.DataFrame :=
  Raise SourceError.

(** A processor with no column pair configured. *)
Definition unconfigured (frame : option FieldDataProcessor.DataFrame)
    : FieldDataProcessor.t :=
  {| FieldDataProcessor.db_path := "sqlite:///farm.db";
     FieldDataProcessor.sql_query := "SELECT * FROM geographic_features";
     FieldDataProcessor.columns_to_rename := [];
     FieldDataProcessor.values_to_rename := ∅;
     FieldDataProcessor.weather_map_data := "mapping.csv";
     FieldDataProcessor.df := frame;
     FieldDataProcessor.logger := [] |}.

Definition field (frame : option FieldDataProcessor.DataFrame)
    : FieldDataProcessor.t :=
  {| FieldDataProcessor.db_path := "sqlite:///farm.db";
     FieldDataProcessor.sql_query := "SELECT * FROM geographic_features";
     FieldDataProcessor.columns_to_rename := [("Annual_yield", "Crop_type")];
     FieldDataProcessor.values_to_rename :=
       <["cassaval" := "cassava"]> (<["wheatn" := "wheat"]> {["teaa" := "tea"]});
     FieldDataProcessor.weather_map_data := "mapping.csv";
     FieldDataProcessor.df := frame;
     FieldDataProcessor.logger := [] |}.

End Sample.

(** * Properties of the list helpers *)

Section ListFacts.

Context {A : Type} `{EqDecision A}.

Lemma index_of_Some (x : A) (l : list A) i :
  index_of x l = Some i -> l !! i = Some x.
Proof.
  revert i. induction l as [|y l IH]; intros i; simpl; [done |].
  case_decide as Hxy.
  - intros [= <-]. by subst.
  - destruct (index_of x l) as [j|]; [| done].
    intros [= <-]. simpl. by apply IH.
Qed.

Lemma index_of_None (x : A) (l : list A) :
  index_of x l = None <-> x ∉ l.
Proof.
  induction l as [|y l IH]; simpl.
  - split; [intros _; apply not_elem_of_nil | done].
  - rewrite not_elem_of_cons. case_decide as Hxy.
    + split; [done | by intros []].
    + destruct (index_of x l) as [j|]; simpl.
      * split; [done |]. intros [_ Hx]. by apply IH in Hx.
      * split; [| done]. intros _. split; [done | by apply IH].
Qed.

Lemma index_of_elem (x : A) (l : list A) :
  x ∈ l -> exists i, index_of x l = Some i.
Proof.
  intros Hx. destruct (index_of x l) as [i|] eqn:E; [by exists i |].
  by apply index_of_None in E.
Qed.

(** The first position is the one found. *)
Lemma index_of_first (x : A) (l : list A) i j :
  index_of x l = Some i -> l !! j = Some x -> (i <= j)%nat.
Proof.
  revert i j. induction l as [|y l IH]; intros i j; simpl; [done |].
  case_decide as Hxy.
  - intros [= <-] _. lia.
  - destruct (index_of x l) as [k|] eqn:E; [| done].
    intros [= <-]. destruct j as [|j]; simpl.
    + by intros [= ->].
    + intros Hj. specialize (IH k j eq_refl Hj). lia.
Qed.

Lemma elem_of_insert_sorted (ltb : A -> A -> bool) (x y : A) (l : list A) :
  y ∈ insert_sorted ltb x l <-> y = x \/ y ∈ l.
Proof.
  induction l as [|z l IH]; simpl.
  - rewrite list_elem_of_singleton, elem_of_nil. tauto.
  - case_decide as Hxz; [subst; rewrite elem_of_cons; tauto |].
    destruct (ltb x z); [apply elem_of_cons |].
    rewrite !elem_of_cons, IH. tauto.
Qed.


End ListFacts.

(** * Properties of the weather pipeline *)

Module WeatherFacts.
Import WeatherDataProcessor.

Section Extraction.

Context {pattern : Type}.
Variable re_search : pattern -> string -> result (option (list (option string))).
Variable float : string -> option Q.

Local Abbreviation extract_loop := (extract_loop re_search float).
Local Abbreviation extract_measurement := (extract_measurement re_search float).
Local Abbreviation process_messages := (process_messages re_search float).
Local Abbreviation unmatched := (unmatched re_search).

Lemma extract_loop_skip pre rest message self :
  unmatched pre message ->
  extract_loop (pre ++ rest) message self = extract_loop rest message self.
Proof.
  induction 1 as [|[key pat] pre Hpat _ IH]; [reflexivity |].
  simpl in *. unfold bind, lift. by rewrite Hpat.
Qed.

Lemma extract_loop_hit key pat rest message groups self :
  re_search pat message = Ok (Some groups) ->
  extract_loop ((key, pat) :: rest) message self =
    match next_not_None groups with
    | Ok x =>
        match float x with
        | Some v => (Ok (Some key, Some v),
                     logged DEBUG ("Measurement extracted: " +:+ key) self)
        | None => (Raise ValueError,
                   logged DEBUG ("Measurement extracted: " +:+ key) self)
        end
    | Raise e => (Raise e, logged DEBUG ("Measurement extracted: " +:+ key) self)
    end.
Proof.
  intros Hpat. simpl. unfold bind, lift, log, modify, float_of, ret.
  rewrite Hpat. destruct (next_not_None groups) as [x|e]; [|reflexivity].
  by destruct (float x).
Qed.

Lemma extract_loop_miss items message self :
  unmatched items message ->
  extract_loop items message self =
    (Ok (None, None), logged DEBUG "No measurement match found." self).
Proof.
  intros H. rewrite <- (app_nil_r items). by rewrite extract_loop_skip.
Qed.

(** An extraction touches nothing but the logger. *)
Lemma extract_loop_frame items message self :
  let s' := (extract_loop items message self).2 in
  patterns s' = patterns self /\ weather_df s' = weather_df self /\
  weather_station_data s' = weather_station_data self.
Proof.
  induction items as [|[key pat] items IH]; [by cbn |].
  simpl. unfold bind, lift, log, modify, float_of, ret.
  destruct (re_search pat message) as [[groups|]|e]; [| exact IH | by cbn].
  destruct (next_not_None groups) as [x|e]; [| by cbn].
  by destruct (float x).
Qed.

Lemma extract_measurement_frame message self :
  let s' := (extract_measurement message self).2 in
  patterns s' = patterns self /\ weather_df s' = weather_df self /\
  weather_station_data s' = weather_station_data self.
Proof. apply extract_loop_frame. Qed.

(** Its outcome depends on the pattern table alone. *)
Lemma extract_loop_outcome items message self self' :
  (extract_loop items message self').1 = (extract_loop items message self).1.
Proof.
  induction items as [|[key pat] items IH]; [by cbn |].
  simpl. unfold bind, lift, log, modify, float_of, ret.
  destruct (re_search pat message) as [[groups|]|e]; [| exact IH | by cbn].
  destruct (next_not_None groups) as [x|e]; [| by cbn].
  by destruct (float x).
Qed.

Lemma extract_measurement_outcome message self self' :
  patterns self' = patterns self ->
  (extract_measurement message self').1 = (extract_measurement message self).1.
Proof.
  intros Hp. unfold WeatherDataProcessor.extract_measurement, bind, get.
  rewrite Hp. apply extract_loop_outcome.
Qed.

(** [Series.apply] over messages that all extract: one result per
    message, in order. *)
Lemma apply_extract_ok messages self s0 :
  patterns s0 = patterns self -> 
  (forall message, message ∈ messages ->
     exists r, (extract_measurement message self).1 = Ok r) ->
  exists rs s',
    apply extract_measurement messages s0 = (Ok rs, s') /\
    patterns s' = patterns self /\ weather_df s' = weather_df s0 /\
    weather_station_data s' = weather_station_data s0 /\
    Forall2 (fun message r => (extract_measurement message self).1 = Ok r)
            messages rs.
Proof.
  revert s0. induction messages as [|message messages IH]; intros s0 Hp Hall.
  - exists [], s0. by repeat split.
  - destruct (Hall message) as [r Hr]; [left |].
    rewrite <- (extract_measurement_outcome message self s0 Hp) in Hr.
    destruct (extract_measurement_frame message s0) as (Hp1 & Hdf1 & Hsrc1).
    simpl. unfold bind at 1.
    destruct (extract_measurement message s0) as [o s1] eqn:E. simpl in *.
    subst o.
    destruct (IH s1) as (rs & s' & Hrun & Hp' & Hdf' & Hsrc' & Hall').
    { congruence. }
    { intros m Hm. apply Hall. by right. }
    exists (r :: rs), s'. unfold bind, ret. rewrite Hrun.
    repeat split; try congruence.
    constructor; [|done].
    rewrite <- (extract_measurement_outcome message self s0 Hp). by rewrite E.
Qed.

(** The first message whose extraction raises stops [Series.apply]. *)
Lemma apply_extract_raise before message after self s0 e :
  patterns s0 = patterns self ->
  (forall m, m ∈ before -> exists r, (extract_measurement m self).1 = Ok r) ->
  (extract_measurement message self).1 = Raise e ->
  exists s',
    apply extract_measurement (before ++ message :: after) s0 = (Raise e, s') /\
    weather_df s' = weather_df s0.
Proof.
  revert s0. induction before as [|m before IH]; intros s0 Hp Hall He.
  - simpl. unfold bind at 1.
    rewrite <- (extract_measurement_outcome message self s0 Hp) in He.
    destruct (extract_measurement_frame message s0) as (_ & Hdf1 & _).
    destruct (extract_measurement message s0) as [o s1]. simpl in *. subst o.
    by exists s1.
  - destruct (Hall m) as [r Hr]; [left |].
    rewrite <- (extract_measurement_outcome m self s0 Hp) in Hr.
    destruct (extract_measurement_frame m s0) as (Hp1 & Hdf1 & _).
    simpl. unfold bind at 1.
    destruct (extract_measurement m s0) as [o s1]. simpl in *. subst o.
    destruct (IH s1) as (s' & Hrun & Hdf'); [congruence | | done |].
    { intros m' Hm'. apply Hall. by right. }
    exists s'. unfold bind. rewrite Hrun. split; congruence.
Qed.

(** Once a pattern matches, the entries after it play no part. *)
Lemma extract_loop_stops pre key pat post post' message groups self :
  unmatched pre message ->
  re_search pat message = Ok (Some groups) ->
  extract_loop (pre ++ (key, pat) :: post) message self =
  extract_loop (pre ++ (key, pat) :: post') message self.
Proof.
  intros Hpre Hpat. rewrite !extract_loop_skip by done.
  by rewrite !(extract_loop_hit _ _ _ _ _ _ Hpat).
Qed.


(** The first message that raises, when one does. *)
Lemma apply_extract_first_raise messages self message e :
  message ∈ messages ->
  (extract_measurement message self).1 = Raise e ->
  exists before first after e',
    messages = before ++ first :: after /\
    (forall m, m ∈ before -> exists r, (extract_measurement m self).1 = Ok r) /\
    (extract_measurement first self).1 = Raise e'.
Proof.
  induction messages as [|m messages IH]; intros Hin He.
  - by apply elem_of_nil in Hin.
  - destruct ((extract_measurement m self).1) as [r|e0] eqn:Hm.
    + apply elem_of_cons in Hin as [-> | Hin]; [congruence |].
      destruct (IH Hin He) as (before & first & after & e' & -> & Hbefore & Hfirst).
      exists (m :: before), first, after, e'. split; [done |]. split; [| done].
      intros m' [-> | Hm']%elem_of_cons; [by exists r | by apply Hbefore].
    + exists [], m, messages, e0. split; [done |]. split; [| done].
      by intros m' ?%elem_of_nil.
Qed.

(** C2, amended.  A message that no pattern matches extracts to
    ([None], [None]), a normal outcome.  When the frame is not empty and
    every message extracts without an exception, the batch processor
    returns a frame with the same records in the same order, each with
    the kind and value of its own extraction: both [None] for a message
    that no pattern matches, whose record is kept.  When the extraction of
    some message raises, the batch processor raises as well (the exception
    of a message of the frame) and produces no output: it returns no frame
    and the frame it holds is as it was. *)
Theorem process_messages_retains_unmatched self :
  (forall message, unmatched (patterns self) message ->
     extract_measurement message self =
       (Ok (None, None), logged DEBUG "No measurement match found." self)) /\
  (forall df,
     weather_df self = Some df ->
     Message df <> [] ->
     (forall message, message ∈ Message df ->
        exists r, (extract_measurement message self).1 = Ok r) ->
     exists out ms vs self',
       process_messages self = (Ok (Some out), self') /\
       weather_df self' = Some out /\
       records out = records df /\
       Measurement out = Some ms /\ Value out = Some vs /\
       length ms = length (Message df) /\ length vs = length (Message df) /\
       forall i message, Message df !! i = Some message ->
         exists kind value,
           ms !! i = Some kind /\ vs !! i = Some value /\
           (extract_measurement message self).1 = Ok (kind, value) /\
           (unmatched (patterns self) message -> kind = None /\ value = None)) /\
  (forall df message e,
     weather_df self = Some df ->
     message ∈ Message df ->
     (extract_measurement message self).1 = Raise e ->
     exists e' self',
       process_messages self = (Raise e', self') /\
       weather_df self' = Some df /\
       exists first,
         first ∈ Message df /\ (extract_measurement first self).1 = Raise e').
Proof.
  split; [| split].
  { intros message Hm. by apply extract_loop_miss. }
  - intros df Hdf Hne Hall.
    destruct (apply_extract_ok (Message df) self self eq_refl Hall)
      as (rs & s' & Hrun & Hp' & Hdf' & _ & Hrs).
    unfold WeatherDataProcessor.process_messages.
    unfold bind at 1. unfold get at 1. rewrite Hdf.
    unfold bind at 1. unfold bind at 1. unfold bind at 1. rewrite Hrun.
    assert (Hlen : length rs = length (Message df))
      by (symmetry; eapply Forall2_length, Hrs).
    assert (Hun : unzip_pairs rs = Ok (rs.*1, rs.*2)).
    { destruct rs; [| done].
      destruct (Message df); [done | simpl in Hlen; discriminate Hlen]. }
    unfold lift, bind. rewrite Hun. cbn.
    eexists _, (rs.*1), (rs.*2), _. split; [reflexivity |].
    repeat split; try done; try (by rewrite length_fmap).
    intros i message Hi.
    destruct (Forall2_lookup_l _ _ _ _ _ Hrs Hi) as ([kind value] & Hri & Hext).
    exists kind, value. rewrite !list_lookup_fmap, Hri.
    split; [done |]. split; [done |]. split; [exact Hext |].
    intros Hm. unfold WeatherDataProcessor.extract_measurement, bind, get in Hext.
    rewrite extract_loop_miss in Hext by done. simpl in Hext.
    split; congruence.
  - intros df message e Hdf Hin He.
    destruct (apply_extract_first_raise (Message df) self message e Hin He)
      as (before & first & after & e' & Hmsg & Hbefore & Hfirst).
    destruct (apply_extract_raise before first after self self e'
                eq_refl Hbefore Hfirst) as (s' & Hrun & Hdf').
    exists e', s'. split; [| split].
    + unfold WeatherDataProcessor.process_messages.
      unfold bind at 1. unfold get at 1. rewrite Hdf.
      unfold bind. by rewrite Hmsg, Hrun.
    + congruence.
    + exists first. split; [| done]. rewrite Hmsg.
      apply elem_of_app. right. left.
Qed.

(** X2.  On a frame without a row the two-target assignment has nothing
    to unpack: the batch processor raises [ValueError] and the processor
    is as it was. *)
Lemma process_messages_empty_frame self df :
  weather_df self = Some df -> Message df = [] ->
  process_messages self = (Raise ValueError, self).
Proof.
  intros Hdf Hnil. unfold WeatherDataProcessor.process_messages.
  unfold bind, get. rewrite Hdf, Hnil. reflexivity.
Qed.

(** C6.  When the first matching pattern's selected group is not a float
    literal, [float] raises [ValueError] out of the extractor: no later
    pattern is tried and no ([None], [None]) is returned.  Nothing catches
    it in the batch processor either, which raises it in turn and assigns
    no column. *)
Theorem extract_measurement_float_error
    self pre key pat post message groups x :
  patterns self = pre ++ (key, pat) :: post ->
  unmatched pre message ->
  re_search pat message = Ok (Some groups) ->
  next_not_None groups = Ok x ->
  float x = None ->
  extract_measurement message self =
    (Raise ValueError,
     logged DEBUG ("Measurement extracted: " +:+ key) self) /\
  forall df before after,
    weather_df self = Some df ->
    Message df = before ++ message :: after ->
    (forall m, m ∈ before ->
       exists r, (extract_measurement m self).1 = Ok r) ->
    exists self',
      process_messages self = (Raise ValueError, self') /\
      weather_df self' = Some df.
Proof.
  intros Hp Hpre Hpat Hx Hv.
  assert (Hext : extract_measurement message self =
    (Raise ValueError, logged DEBUG ("Measurement extracted: " +:+ key) self)).
  { unfold WeatherDataProcessor.extract_measurement, bind, get. rewrite Hp.
    rewrite extract_loop_skip by done.
    rewrite (extract_loop_hit _ _ _ _ _ _ Hpat). by rewrite Hx, Hv. }
  split; [exact Hext |].
  intros df before after Hdf Hmsg Hbefore.
  destruct (apply_extract_raise before message after self self ValueError
              eq_refl Hbefore) as (s' & Hrun & Hdf').
  { by rewrite Hext. }
  exists s'. unfold WeatherDataProcessor.process_messages.
  unfold bind at 1. unfold get at 1. rewrite Hdf.
  unfold bind. rewrite Hmsg, Hrun. split; [done | congruence].
Qed.

(** C10.  When the first matching pattern's match has no group that is
    not [None] (as when the pattern has no capturing group), [next] finds
    nothing and the extractor raises [StopIteration]: it returns neither a
    (kind, value) pair nor ([None], [None]). *)
Theorem extract_measurement_no_group
    self pre key pat post message groups :
  patterns self = pre ++ (key, pat) :: post ->
  unmatched pre message ->
  re_search pat message = Ok (Some groups) ->
  Forall (fun g => g = None) groups ->
  extract_measurement message self =
    (Raise StopIteration,
     logged DEBUG ("Measurement extracted: " +:+ key) self).
Proof.
  intros Hp Hpre Hpat Hnone.
  unfold WeatherDataProcessor.extract_measurement, bind, get. rewrite Hp.
  rewrite extract_loop_skip by done.
  rewrite (extract_loop_hit _ _ _ _ _ _ Hpat).
  assert (Hnext : next_not_None groups = Raise StopIteration).
  { unfold next_not_None. replace (omap id groups) with (@nil string); [done |].
    clear -Hnone. induction Hnone as [|g gs -> _ IH]; [done | exact IH]. }
  by rewrite Hnext.
Qed.

End Extraction.

Section Aggregation.









Lemma omap_key_of_unmatched stations ms vs :
  Forall (fun m => m = None) ms ->
  omap key_of (zip (zip stations ms) vs) = [].
Proof.
  intros Hms. revert stations vs.
  induction Hms as [|m ms -> _ IH]; intros [|s stations] [|v vs]; try done.
  simpl. apply IH.
Qed.

Context {pattern : Type}.
Implicit Types self : t pattern.


(** C5.  The aggregator tells its three situations apart.  With no frame
    loaded it returns [None] and logs a warning; with a frame loaded but
    no [Measurement] column assigned it raises [KeyError]; after an
    extraction in which no message matched it returns a frame, the empty
    one, and logs at [INFO]. *)
Theorem calculate_means_before_extraction
    (fresh loaded finished : t pattern) raw df ms vs :
  weather_df fresh = None ->
  weather_df loaded = Some raw -> Measurement raw = None ->
  weather_df finished = Some df ->
  Measurement df = Some ms -> Value df = Some vs ->
  Forall (fun m => m = None) ms ->
  calculate_means fresh =
    (Ok None,
     logged WARNING "weather_df is not initialized, cannot calculate means."
       fresh) /\
  calculate_means loaded = (Raise (KeyError "Measurement"), loaded) /\
  calculate_means finished =
    (Ok (Some {| index := []; columns := []; data := [] |}),
     logged INFO "Mean values calculated." finished) /\
  (calculate_means fresh).1 <> (calculate_means finished).1.
Proof.
  intros Hfresh Hloaded Hraw Hdone Hms Hvs Hnone.
  assert (H1 : calculate_means fresh =
    (Ok None,
     logged WARNING "weather_df is not initialized, cannot calculate means."
       fresh)).
  { unfold calculate_means, bind, get. by rewrite Hfresh. }
  assert (H3 : calculate_means finished =
    (Ok (Some {| index := []; columns := []; data := [] |}),
     logged INFO "Mean values calculated." finished)).
  { unfold calculate_means, bind, get, lift, group_rows.
    rewrite Hdone, Hms, Hvs. unfold groupby_mean.
    by rewrite omap_key_of_unmatched. }
  split; [exact H1 |]. split.
  - unfold calculate_means, bind, get, lift, group_rows.
    by rewrite Hloaded, Hraw.
  - split; [exact H3 |]. by rewrite H1, H3.
Qed.

End Aggregation.

(** ** The theorems on the sample configuration *)

Section Examples.

Local Abbreviation extract := (extract_measurement Sample.re_search Sample.decimal).
Local Abbreviation batch := (process_messages Sample.re_search Sample.decimal).
Local Abbreviation table := Sample.regex_patterns.

Example extract_temperature :
  (extract "temp: 23.4C" (Sample.weather table None)).1
  = Ok (Some "temperature", Some (234 # 10)%Q).
Proof. reflexivity. Qed.

Example extract_nothing :
  (extract "rainfall heavy" (Sample.weather table None)).1 = Ok (None, None).
Proof. reflexivity. Qed.


Lemma process_messages_retains_unmatched_witness :
  (exists out,
     (batch (Sample.weather table
        (Some (Sample.raw [1; 1; 2]%Z ["temp: 23.4C"; "rainfall heavy"; "24.6C"])))).1
       = Ok (Some out) /\
     Message out = ["temp: 23.4C"; "rainfall heavy"; "24.6C"] /\
     Measurement out = Some [Some "temperature"; None; Some "temperature"]) /\
  (exists e' self',
     batch (Sample.weather table
        (Some (Sample.raw [1; 2]%Z ["rainfall heavy"; "1.2.3C"])))
     = (Raise e', self') /\
     weather_df self' = Some (Sample.raw [1; 2]%Z ["rainfall heavy"; "1.2.3C"])).
Proof.
  split.
  - destruct (proj1 (proj2 (process_messages_retains_unmatched
                Sample.re_search Sample.decimal
                (Sample.weather table
                   (Some (Sample.raw [1; 1; 2]%Z
                            ["temp: 23.4C"; "rainfall heavy"; "24.6C"])))))
                (Sample.raw [1; 1; 2]%Z ["temp: 23.4C"; "rainfall heavy"; "24.6C"]))
      as (out & ms & vs & self' & Hrun & _).
    + reflexivity.
    + discriminate.
    + intros message Hm. cbn in Hm.
      repeat (apply elem_of_cons in Hm as [-> | Hm]; [eexists; reflexivity |]).
      by apply elem_of_nil in Hm.
    + exists out. rewrite Hrun. simpl. split; [reflexivity |].
      vm_compute in Hrun. injection Hrun as <- _. split; reflexivity.
  - destruct (proj2 (proj2 (process_messages_retains_unmatched
                Sample.re_search Sample.decimal
                (Sample.weather table
                   (Some (Sample.raw [1; 2]%Z ["rainfall heavy"; "1.2.3C"])))))
                (Sample.raw [1; 2]%Z ["rainfall heavy"; "1.2.3C"])
                "1.2.3C" ValueError)
      as (e' & self' & Hrun & Hdf & _).
    + reflexivity.
    + right. left.
    + reflexivity.
    + by exists e', self'.
Defined.

(** C2 as stated fails: a message that matches no pattern sits in a
    frame whose next message has an unparsable capture; the batch
    processor raises and there is no output for the record to be in. *)
Lemma process_messages_retains_unmatched_counterexample :
  let df := Sample.raw [1; 2]%Z ["rainfall heavy"; "1.2.3C"] in
  let self := Sample.weather table (Some df) in
  "rainfall heavy" ∈ Message df /\
  unmatched Sample.re_search (patterns self) "rainfall heavy" /\
  batch self =
    (Raise ValueError,
     logged DEBUG "Measurement extracted: temperature"
       (logged DEBUG "No measurement match found." self)) /\
  weather_df (batch self).2 = Some df.
Proof.
  repeat split.
  - left.
  - repeat constructor.
Qed.

Lemma extract_measurement_float_error_witness :
  extract "1.2.3C" (Sample.weather table None) =
    (Raise ValueError,
     logged DEBUG "Measurement extracted: temperature" (Sample.weather table None)).
Proof.
  apply (extract_measurement_float_error Sample.re_search Sample.decimal
           (Sample.weather table None)
           [("rainfall", Sample.NumberBefore "mm")]
           "temperature" (Sample.NumberBefore "C")
           [("humidity", Sample.NumberBefore "%")]
           "1.2.3C" [Some "1.2.3"] "1.2.3").
  - reflexivity.
  - repeat constructor.
  - reflexivity.
  - reflexivity.
  - reflexivity.
Defined.

Lemma extract_measurement_no_group_witness :
  extract "storm warning"
    (Sample.weather [("temperature", Sample.NumberBefore "C");
                     ("storm", Sample.Word "storm")] None) =
    (Raise StopIteration,
     logged DEBUG "Measurement extracted: storm"
       (Sample.weather [("temperature", Sample.NumberBefore "C");
                        ("storm", Sample.Word "storm")] None)).
Proof.
  apply (extract_measurement_no_group Sample.re_search Sample.decimal
           (Sample.weather [("temperature", Sample.NumberBefore "C");
                            ("storm", Sample.Word "storm")] None)
           [("temperature", Sample.NumberBefore "C")]
           "storm" (Sample.Word "storm") [] "storm warning" []).
  - reflexivity.
  - repeat constructor.
  - reflexivity.
  - constructor.
Defined.

(** The whole weather pipeline on the sample source, then the means. *)
Example process_then_means :
  ((process Sample.re_search Sample.decimal Sample.weather_source ;;;
    calculate_means) (Sample.weather table None)).1
  = Ok (Some {| index := [1%Z];
                columns := ["temperature"];
                data := [[Some (mean [(234 # 10)%Q; (246 # 10)%Q])]] |}).
Proof. reflexivity. Qed.


Lemma calculate_means_before_extraction_witness :
  let fresh := Sample.weather table None in
  let loaded := Sample.weather table (Some (Sample.raw [3]%Z ["rainfall heavy"])) in
  let finished := (batch loaded).2 in
  (calculate_means fresh).1 = Ok None /\
  (calculate_means loaded).1 = Raise (KeyError "Measurement") /\
  (calculate_means finished).1 = Ok (Some {| index := []; columns := []; data := [] |}).
Proof.
  intros fresh loaded finished.
  destruct (calculate_means_before_extraction fresh loaded finished
              (Sample.raw [3]%Z ["rainfall heavy"])
              (Sample.extracted [3]%Z ["rainfall heavy"] [None] [None])
              [None] [None])
    as (H1 & H2 & H3 & _); try reflexivity.
  - repeat constructor.
  - by rewrite H1, H2, H3.
Defined.

End Examples.

End WeatherFacts.

(** * Properties of the field pipeline *)

Module FieldFacts.
Import FieldDataProcessor.

(** Unfold the plumbing of a method body. *)
Ltac run_method :=
  cbv beta iota zeta delta
    [bind get lift ret raise modify the_df df_to_subscript set_df log].

(** Concrete label lists. *)
Ltac distinct_labels :=
  apply NoDup_ListNoDup; repeat constructor; cbn; intros H;
  repeat (destruct H as [H | H]; [discriminate H |]); done.

Ltac not_a_label :=
  let Hin := fresh "Hin" in
  intros Hin;
  repeat (apply elem_of_cons in Hin as [Hin | Hin]; [discriminate Hin |]);
  by apply elem_of_nil in Hin.

Ltac sample_joinable :=
  unfold joinable;
  split; [by repeat constructor |];
  split; [by repeat constructor |];
  split; [distinct_labels |];
  split; [distinct_labels |];
  split; [by repeat constructor |];
  split; [by repeat constructor |];
  split;
  [ let Hl := fresh "Hl" in
    let Hr := fresh "Hr" in
    intros label Hl Hr;
    repeat (apply elem_of_cons in Hl as [-> | Hl];
            [ first [ reflexivity
                    | exfalso; revert Hr; not_a_label ] |]);
    by apply elem_of_nil in Hl
  | split; repeat constructor; by intros k [= <-] ].

Section Placeholder.

Lemma length_append_underscore (temp_name : string) :
  String.length (temp_name +:+ "_") = S (String.length temp_name).
Proof. induction temp_name as [|c s IH]; simpl; [done | by rewrite IH]. Qed.

Lemma longer_labels_le (labels : list string) (temp_name : string) :
  (longer_labels labels temp_name <= length labels)%nat.
Proof. apply length_filter. Qed.

(** A colliding placeholder is one of the labels the next round no longer
    counts. *)
Lemma longer_labels_extend (labels : list string) (temp_name : string) :
  temp_name ∈ labels ->
  (longer_labels labels (temp_name +:+ "_") < longer_labels labels temp_name)%nat.
Proof.
  unfold longer_labels. rewrite length_append_underscore.
  induction labels as [|l ls IH]; [by intros ?%elem_of_nil |].
  rewrite !filter_cons. intros [<- | Hin]%elem_of_cons.
  - rewrite decide_False by lia. rewrite decide_True by lia. simpl.
    apply Nat.lt_succ_r. clear.
    induction ls as [|x xs IHxs]; simpl; [lia |].
    rewrite !filter_cons. repeat case_decide; simpl; lia.
  - specialize (IH Hin). repeat case_decide; simpl; lia.
Qed.

(** The loop exits on a label the frame does not have. *)
Lemma extend_temp_name_not_label (labels : list string) (temp_name : string) :
  extend_temp_name labels temp_name ∉ labels.
Proof. funelim (extend_temp_name labels temp_name); done. Qed.

(** C7.  The placeholder loop ends, after at most as many rounds as there
    are labels, on the default placeholder extended by one underscore per
    round; every shorter extension is an existing label and the one
    returned is not. *)
Theorem extend_temp_name_fresh (labels : list string) (temp_name : string) :
  (extend_temp_name labels temp_name ∉ labels) /\
  exists k,
    extend_temp_name labels temp_name = extended temp_name k /\
    (k <= longer_labels labels temp_name)%nat /\
    (k <= length labels)%nat /\
    forall j, (j < k)%nat -> extended temp_name j ∈ labels.
Proof.
  split; [apply extend_temp_name_not_label |].
  funelim (extend_temp_name labels temp_name).
  - match goal with
    | IH : ex _ |- _ => destruct IH as (k & Hk & Hle & _ & Hbelow)
    end.
    pose proof (longer_labels_extend labels temp_name e) as Hlt.
    pose proof (longer_labels_le labels temp_name) as Hmax.
    exists (S k). repeat split; [exact Hk | lia | lia |].
    intros [|j] Hj; simpl; [exact e |]. apply Hbelow. lia.
  - exists 0%nat. repeat split; [lia | lia |].
    intros j Hj. lia.
Qed.

End Placeholder.

Section ColumnRepair.

Lemma swap_label_involutive c1 c2 label :
  swap_label c1 c2 (swap_label c1 c2 label) = label.
Proof. unfold swap_label. repeat case_decide; congruence. Qed.

Lemma index_of_swap_label c1 c2 label (labels : list string) :
  index_of (swap_label c1 c2 label) (swap_label c1 c2 <$> labels)
  = index_of label labels.
Proof.
  induction labels as [|l ls IH]; [done |].
  rewrite fmap_cons. cbn [index_of].
  rewrite IH. destruct (decide (label = l)) as [->|Hne].
  - by rewrite decide_True.
  - rewrite decide_False; [done |].
    intros Heq. apply Hne.
    by rewrite <- (swap_label_involutive c1 c2 label), Heq,
      swap_label_involutive.
Qed.

(** The two renames of the swap, one after the other, on the labels. *)
Lemma rename_twice_swaps c1 c2 temp_name (labels : list string) :
  temp_name ∉ labels -> c1 ∈ labels ->
  (fun label => default label (({[temp_name := c2]} : gmap string string) !! label))
    <$> ((fun label =>
            default label
              ((<[c2 := c1]> (<[c1 := temp_name]> ∅) : gmap string string) !! label))
           <$> labels)
  = swap_label c1 c2 <$> labels.
Proof.
  intros Hfresh Hc1. rewrite <- list_fmap_compose.
  apply list_fmap_ext. intros i label Hlabel%list_elem_of_lookup_2. simpl.
  assert (label <> temp_name) by (intros ->; done).
  assert (c1 <> temp_name) by (intros ->; done).
  unfold swap_label.
  destruct (decide (label = c2)) as [->|Hc2].
  - rewrite lookup_insert_eq. simpl.
    rewrite lookup_singleton_ne by done. simpl.
    by case_decide.
  - rewrite lookup_insert_ne by done.
    destruct (decide (label = c1)) as [->|Hc1'].
    + rewrite lookup_insert_eq. simpl. by rewrite lookup_singleton_eq.
    + rewrite lookup_insert_ne by done. rewrite lookup_empty. simpl.
      by rewrite lookup_singleton_ne.
Qed.

Lemma swap_label_twice c1 c2 (labels : list string) :
  swap_label c1 c2 <$> (swap_label c1 c2 <$> labels) = labels.
Proof.
  rewrite <- list_fmap_compose. rewrite <- (list_fmap_id labels) at 2.
  apply list_fmap_ext. intros i label _. apply swap_label_involutive.
Qed.

Lemma at_label_swapped frame out c1 c2 r label :
  rows out = rows frame ->
  columns out = swap_label c1 c2 <$> columns frame ->
  at_label out r (swap_label c1 c2 label) = at_label frame r label.
Proof.
  intros Hrows Hcols. unfold at_label.
  by rewrite Hrows, Hcols, index_of_swap_label.
Qed.

(** What one call does to the processor. *)
Lemma rename_columns_runs self frame c1 c2 others :
  df self = Some frame ->
  columns_to_rename self = (c1, c2) :: others ->
  c1 ∈ columns frame ->
  rename_columns self =
    (Ok tt,
     logged INFO ("Swapped columns: " +:+ c1 +:+ " with " +:+ c2)
       (with_df {| columns := swap_label c1 c2 <$> columns frame;
                   rows := rows frame |} self)).
Proof.
  intros Hdf Hcfg Hc1.
  pose proof (extend_temp_name_not_label (columns frame) "__temp_name_for_swap__")
    as Hfresh.
  set (temp_name := extend_temp_name (columns frame) "__temp_name_for_swap__") in *.
  unfold rename_columns. run_method. rewrite Hcfg. simpl. rewrite Hdf.
  unfold rename. simpl. fold temp_name.
  by rewrite (rename_twice_swaps c1 c2 temp_name (columns frame)).
Qed.

(** C4.  With the pair ([c1], [c2]) configured and [c1] a column of the
    frame, column repair leaves every cell where it is and exchanges the
    two labels: in every row, what was under [c1] is now under [c2] and
    what was under [c2] is now under [c1]; every other label still reads
    the same cells. *)
Theorem rename_columns_exchanges self frame c1 c2 others :
  df self = Some frame ->
  columns_to_rename self = (c1, c2) :: others ->
  c1 ∈ columns frame ->
  exists out,
    rename_columns self =
      (Ok tt,
       logged INFO ("Swapped columns: " +:+ c1 +:+ " with " +:+ c2)
         (with_df out self)) /\
    rows out = rows frame /\
    columns out = swap_label c1 c2 <$> columns frame /\
    (forall r, at_label out r c2 = at_label frame r c1 /\
               at_label out r c1 = at_label frame r c2) /\
    (forall r label, label <> c1 -> label <> c2 ->
       at_label out r label = at_label frame r label).
Proof.
  intros Hdf Hcfg Hc1.
  set (out := {| columns := swap_label c1 c2 <$> columns frame;
                 rows := rows frame |}).
  exists out.
  split; [by apply (rename_columns_runs self frame c1 c2 others) |].
  split; [done |]. split; [done |]. split.
  - intros r. split.
    + rewrite <- (at_label_swapped frame out c1 c2 r c1) by done.
      unfold swap_label. by rewrite decide_True.
    + rewrite <- (at_label_swapped frame out c1 c2 r c2) by done.
      unfold swap_label. case_decide; [by subst |]. by rewrite decide_True.
  - intros r label H1 H2.
    rewrite <- (at_label_swapped frame out c1 c2 r label) by done.
    unfold swap_label. by rewrite !decide_False.
Qed.

(** X10.  Column repair is an involution: with both configured labels
    present, a second call restores the frame. *)
Lemma rename_columns_involutive self frame c1 c2 others :
  df self = Some frame ->
  columns_to_rename self = (c1, c2) :: others ->
  c1 ∈ columns frame -> c2 ∈ columns frame ->
  exists self',
    (rename_columns ;;; rename_columns) self = (Ok tt, self') /\
    df self' = Some frame.
Proof.
  intros Hdf Hcfg Hc1 Hc2.
  pose proof (rename_columns_runs self frame c1 c2 others Hdf Hcfg Hc1) as Hrun.
  set (out := {| columns := swap_label c1 c2 <$> columns frame;
                 rows := rows frame |}) in *.
  set (mid := logged INFO ("Swapped columns: " +:+ c1 +:+ " with " +:+ c2)
                (with_df out self)) in *.
  assert (Hrun' := rename_columns_runs mid out c1 c2 others eq_refl Hcfg).
  eexists. unfold bind. rewrite Hrun, Hrun'.
  - split; [reflexivity |]. simpl. rewrite swap_label_twice. by destruct frame.
  - simpl. apply list_elem_of_fmap. exists c2. split; [| done].
    unfold swap_label. case_decide; [by subst |]. by rewrite decide_True.
Qed.

End ColumnRepair.

Section Corrections.

(** Reading a whole column agrees with reading it cell by cell. *)
Lemma getitem_at_label frame label :
  well_formed frame -> label ∈ columns frame ->
  exists col,
    getitem frame label = Ok col /\
    length col = length (rows frame) /\
    forall r, col !! r = at_label frame r label.
Proof.
  intros Hwf [i Hi]%index_of_elem. unfold getitem, at_label. rewrite Hi.
  eexists. split; [reflexivity |]. split; [by rewrite length_fmap |].
  intros r. rewrite list_lookup_fmap. simpl.
  destruct (rows frame !! r) as [row|] eqn:Hrow; simpl; [| done].
  pose proof (Forall_lookup_1 _ _ _ _ Hwf Hrow) as Hlen. simpl in Hlen.
  apply index_of_Some, lookup_lt_Some in Hi.
  destruct (lookup_lt_is_Some_2 row i) as [c Hc]; [lia |].
  by rewrite Hc.
Qed.

Lemma setitem_columns frame label values :
  label ∈ columns frame -> columns (setitem frame label values) = columns frame.
Proof. intros [i Hi]%index_of_elem. unfold setitem. by rewrite Hi. Qed.

Lemma setitem_length frame label values :
  length values = length (rows frame) ->
  length (rows (setitem frame label values)) = length (rows frame).
Proof.
  intros Hlen. unfold setitem.
  destruct (index_of label (columns frame)); simpl;
    rewrite length_zip_with; lia.
Qed.

Lemma setitem_well_formed frame label values :
  well_formed frame -> label ∈ columns frame ->
  well_formed (setitem frame label values).
Proof.
  intros Hwf [i Hi]%index_of_elem. unfold well_formed, setitem. rewrite Hi.
  simpl. apply Forall_lookup. intros r row'. rewrite lookup_zip_with.
  destruct (rows frame !! r) as [row|] eqn:Hrow; simpl; [| done].
  destruct (values !! r) as [v|]; simpl; [| done].
  intros [= <-]. rewrite length_insert.
  apply (Forall_lookup_1 _ _ _ _ Hwf Hrow).
Qed.

(** An assigned column reads back what was assigned; the others are as
    they were. *)
Lemma at_label_setitem frame label values r label' :
  well_formed frame -> label ∈ columns frame ->
  length values = length (rows frame) ->
  at_label (setitem frame label values) r label' =
    if decide (label' = label) then values !! r else at_label frame r label'.
Proof.
  intros Hwf [i Hi]%index_of_elem Hlen. unfold at_label, setitem.
  rewrite Hi. simpl.
  pose proof (index_of_Some _ _ _ Hi) as Hci.
  case_decide as Hl.
  - subst label'. rewrite Hi. simpl. rewrite lookup_zip_with.
    destruct (rows frame !! r) as [row|] eqn:Hrow; simpl.
    + destruct (values !! r) as [v|] eqn:Hv; simpl.
      * apply list_lookup_insert_eq.
        pose proof (Forall_lookup_1 _ _ _ _ Hwf Hrow) as Hrl. simpl in Hrl.
        apply lookup_lt_Some in Hci. lia.
      * apply lookup_ge_None in Hv. apply lookup_lt_Some in Hrow. lia.
    + apply lookup_ge_None in Hrow. symmetry. apply lookup_ge_None. lia.
  - destruct (index_of label' (columns frame)) as [j|] eqn:Hj; simpl; [| done].
    pose proof (index_of_Some _ _ _ Hj) as Hcj.
    rewrite lookup_zip_with.
    destruct (rows frame !! r) as [row|] eqn:Hrow; simpl; [| done].
    destruct (values !! r) as [v|] eqn:Hv; simpl.
    + apply list_lookup_insert_ne. intros ->. congruence.
    + apply lookup_ge_None in Hv. apply lookup_lt_Some in Hrow. lia.
Qed.

Lemma traverse_abs_cell (col : list cell) :
  (forall r s, col !! r <> Some (Str s)) ->
  exists col',
    traverse abs_cell col = Ok col' /\
    length col' = length col /\
    forall r c, col !! r = Some c ->
      exists c', col' !! r = Some c' /\ abs_cell c = Ok c'.
Proof.
  induction col as [|c col IH]; intros Hnum.
  - exists []. by repeat split.
  - destruct IH as (col' & Hrun & Hlen & Hcells).
    { intros r s. apply (Hnum (S r) s). }
    assert (Hc : exists c', abs_cell c = Ok c').
    { destruct c as [|q|s|z]; simpl; eauto. by destruct (Hnum 0%nat s). }
    destruct Hc as [c' Hc].
    exists (c' :: col'). simpl. rewrite Hc, Hrun.
    split; [done |]. split; [by rewrite Hlen |].
    intros [|r] c0; simpl.
    + intros [= <-]. by exists c'.
    + apply Hcells.
Qed.


End Corrections.

Section Merge.

Variable read_from_web_CSV : string -> result DataFrame.

Local Abbreviation weather_station_mapping :=
  (weather_station_mapping read_from_web_CSV).

Lemma bind_join_fmap {A B} (f : A -> list B) (l : list A) :
  l ≫= f = mjoin (f <$> l).
Proof.
  induction l as [|x l IH]; [done |].
  rewrite bind_cons, fmap_cons, IH. done.
Qed.

(** A label that occurs once is not among the others. *)
Lemma NoDup_not_elem_delete (labels : list string) k label :
  NoDup labels -> labels !! k = Some label -> label ∉ delete k labels.
Proof.
  intros Hnd Hk. rewrite delete_take_drop.
  rewrite <- (take_drop_middle labels k label Hk) in Hnd.
  apply NoDup_app in Hnd as (_ & Hleft & Hright).
  apply NoDup_cons in Hright as [Hright _].
  intros [Hin | Hin]%elem_of_app; [| done].
  apply (Hleft label Hin). left.
Qed.

Lemma key_column_no_text k (rws : list (list cell)) :
  Forall (fun row => is_text (default NaN (row !! k)) = false) rws ->
  existsb is_text (key_column k rws) = false.
Proof.
  induction 1 as [|row rws Hrow _ IH]; [done |].
  simpl. by rewrite Hrow, IH.
Qed.

(** On joinable frames the merge succeeds, and no label gets a suffix. *)
Lemma merge_joinable left right on kl kr :
  joinable left right on ->
  index_of on (columns left) = Some kl ->
  index_of on (columns right) = Some kr ->
  merge left right on =
    Ok {| columns := columns left ++ delete kr (columns right);
          rows := rows left
                  ≫= joined kl kr (length (columns right) - 1)
                       (some_unmatched kl kr (rows left) (rows right))
                       (rows right) |}.
Proof.
  intros (_ & _ & Hndl & Hndr & _ & _ & Hshared & Hkl & Hkr) Hil Hir.
  pose proof (index_of_Some _ _ _ Hil) as Hl.
  pose proof (index_of_Some _ _ _ Hir) as Hr.
  assert (Hw : length (delete kr (columns right))
               = (length (columns right) - 1)%nat).
  { apply length_delete. by eexists. }
  assert (Honr : on ∉ delete kr (columns right))
    by by apply NoDup_not_elem_delete.
  unfold merge. rewrite Hil, Hir.
  rewrite decide_False.
  2:{ intros [Hin | Hin]; [| done].
      by apply (NoDup_not_elem_delete (columns left) kl on). }
  unfold incompatible, textual.
  rewrite !key_column_no_text.
  2:{ eapply Forall_impl; [exact Hkl |]. intros row Hrow. by apply Hrow. }
  2:{ eapply Forall_impl; [exact Hkr |]. intros row Hrow. by apply Hrow. }
  rewrite !andb_false_r. simpl. rewrite Hw. f_equal. f_equal. f_equal.
  - rewrite <- (list_fmap_id (columns left)) at 2.
    apply Forall_fmap_ext, Forall_forall. intros label Hin. unfold suffixed.
    rewrite decide_False; [done |]. intros [Hne Hdel]. apply Hne.
    apply Hshared; [done |]. by eapply list_elem_of_delete_inv.
  - rewrite <- (list_fmap_id (delete kr (columns right))) at 2.
    apply Forall_fmap_ext, Forall_forall. intros label Hin. unfold suffixed.
    rewrite decide_False; [done |]. intros [Hne Hdel]. apply Hne.
    apply Hshared; [done |]. by eapply list_elem_of_delete_inv.
Qed.

(** What one field row becomes. *)
Lemma joined_spec kl kr width fill right_rows lrow :
  (matches kl kr right_rows lrow = [] /\
   joined kl kr width fill right_rows lrow = [lrow ++ replicate width NaN]) \/
  (matches kl kr right_rows lrow <> [] /\
   joined kl kr width fill right_rows lrow
   = (fun rrow => lrow ++ station_cells kr fill rrow)
       <$> matches kl kr right_rows lrow).
Proof.
  unfold joined. destruct (matches kl kr right_rows lrow) as [|rrow rrows].
  - by left.
  - by right.
Qed.

(** C9.  On joinable frames the merge keeps every field row, in order,
    and drops none: the output rows are the field rows' blocks one after
    the other; the block of a field row with no station mapping record of
    the same key is that row exactly once, with every station column
    missing, and the block of any other field row has one row for each
    mapping record of its key, the field row followed by that record's
    station cells. *)
Theorem weather_station_mapping_left_join self frame mapping kl kr :
  df self = Some frame ->
  read_from_web_CSV (weather_map_data self) = Ok mapping ->
  joinable frame mapping "Field_ID" ->
  index_of "Field_ID" (columns frame) = Some kl ->
  index_of "Field_ID" (columns mapping) = Some kr ->
  let width := (length (columns mapping) - 1)%nat in
  let fill := some_unmatched kl kr (rows frame) (rows mapping) in
  exists out blocks,
    weather_station_mapping self = (Ok tt, with_df out self) /\
    columns out = columns frame ++ delete kr (columns mapping) /\
    rows out = mjoin blocks /\
    Forall2 (fun lrow block =>
               (matches kl kr (rows mapping) lrow = [] /\
                block = [lrow ++ replicate width NaN]) \/
               (matches kl kr (rows mapping) lrow <> [] /\
                block = (fun rrow => lrow ++ station_cells kr fill rrow)
                          <$> matches kl kr (rows mapping) lrow))
            (rows frame) blocks /\
    (forall r lrow, rows frame !! r = Some lrow ->
       exists r' tail,
         rows out !! r' = Some (lrow ++ tail) /\
         (matches kl kr (rows mapping) lrow = [] -> tail = replicate width NaN)) /\
    (length (rows frame) <= length (rows out))%nat.
Proof.
  intros Hdf Hread Hjoin Hkl Hkr width fill.
  set (blocks := joined kl kr width fill (rows mapping) <$> rows frame).
  assert (Hblocks : Forall2 (fun lrow block =>
               (matches kl kr (rows mapping) lrow = [] /\
                block = [lrow ++ replicate width NaN]) \/
               (matches kl kr (rows mapping) lrow <> [] /\
                block = (fun rrow => lrow ++ station_cells kr fill rrow)
                          <$> matches kl kr (rows mapping) lrow))
            (rows frame) blocks).
  { unfold blocks. apply Forall2_fmap_r, Forall_Forall2_diag, Forall_forall.
    intros lrow _. apply joined_spec. }
  assert (Heach : forall r lrow, rows frame !! r = Some lrow ->
     exists r' tail,
       mjoin blocks !! r' = Some (lrow ++ tail) /\
       (matches kl kr (rows mapping) lrow = [] -> tail = replicate width NaN)).
  { intros r lrow Hr.
    destruct (Forall2_lookup_l _ _ _ _ _ Hblocks Hr) as (block & Hb & Hcase).
    assert (Hhead : exists tail rest, block = (lrow ++ tail) :: rest /\
              (matches kl kr (rows mapping) lrow = [] ->
               tail = replicate width NaN)).
    { destruct Hcase as [[Hnone ->] | [Hsome ->]].
      - by eexists _, _.
      - destruct (matches kl kr (rows mapping) lrow) as [|m ms]; [done |].
        by eexists _, _. }
    destruct Hhead as (tail & rest & -> & Htail).
    assert (Hin : lrow ++ tail ∈ mjoin blocks).
    { apply list_elem_of_join. exists ((lrow ++ tail) :: rest).
      split; [left | by apply list_elem_of_lookup_2 in Hb]. }
    apply list_elem_of_lookup_1 in Hin as [r' Hr'].
    by exists r', tail. }
  eexists _, blocks. split; [| split; [| split; [| split; [| split]]]].
  - unfold FieldDataProcessor.weather_station_mapping. run_method.
    rewrite Hread, Hdf.
    by rewrite (merge_joinable frame mapping "Field_ID" kl kr Hjoin Hkl Hkr).
  - done.
  - simpl. apply bind_join_fmap.
  - exact Hblocks.
  - simpl. intros r lrow Hr. rewrite bind_join_fmap. by apply (Heach r).
  - simpl. rewrite bind_join_fmap. fold width fill blocks.
    clear Heach. generalize dependent blocks. generalize (rows frame).
    intros lrows blocks Hblocks.
    induction Hblocks as [|lrow block lrows blocks' Hcase _ IH]; [done |].
    simpl. rewrite length_app.
    assert (1 <= length block)%nat; [| lia].
    destruct Hcase as [[_ ->] | [Hsome ->]]; [done |].
    rewrite length_fmap.
    destruct (matches kl kr (rows mapping) lrow); [done | simpl; lia].
Qed.

End Merge.

(** ** The theorems on the sample configuration *)

Section Examples.

Example extend_temp_name_collides :
  extend_temp_name ["__temp_name_for_swap___"; "a"; "__temp_name_for_swap__"]
    "__temp_name_for_swap__"
  = "__temp_name_for_swap____".
Proof. reflexivity. Qed.

Lemma rename_columns_exchanges_witness :
  exists out,
    (rename_columns (Sample.field (Some Sample.fields))).1 = Ok tt /\
    df (rename_columns (Sample.field (Some Sample.fields))).2 = Some out /\
    columns out = ["Field_ID"; "Elevation"; "Crop_type"; "Annual_yield"] /\
    at_label out 0 "Crop_type" = Some (Str "cassaval") /\
    at_label out 0 "Annual_yield" = Some (Num (1 # 2)).
Proof.
  destruct (rename_columns_exchanges (Sample.field (Some Sample.fields))
              Sample.fields "Annual_yield" "Crop_type" [])
    as (out & Hrun & _ & Hcols & Hswap & _).
  - reflexivity.
  - reflexivity.
  - by repeat constructor.
  - exists out. rewrite Hrun, Hcols.
    destruct (Hswap 0%nat) as [-> ->]. by repeat split.
Defined.



(** Field 7 has no station: it is kept, with the station column missing. *)
Lemma weather_station_mapping_left_join_witness :
  exists out,
    (weather_station_mapping Sample.mapping_source
       (Sample.field (Some Sample.fields_repaired))).1 = Ok tt /\
    df (weather_station_mapping Sample.mapping_source
          (Sample.field (Some Sample.fields_repaired))).2 = Some out /\
    rows out =
      [[Num 7; Num (-50); Str "cassaval"; Num (1 # 2); NaN; NaN];
       [Num 8; Num 120; Str "tea"; Num (3 # 4); Num 0; Num 2]].
Proof.
  destruct (weather_station_mapping_left_join Sample.mapping_source
              (Sample.field (Some Sample.fields_repaired))
              Sample.fields_repaired Sample.station_mapping 0%nat 1%nat)
    as (out & blocks & Hrun & _); try reflexivity.
  - sample_joinable.
  - exists out. rewrite Hrun. split; [reflexivity |]. split; [reflexivity |].
    vm_compute in Hrun. by injection Hrun as <-.
Defined.

(** Integer station cells come out as floats once a field has no
    station; text identifiers do not merge with integer ones. *)
Example merge_fills_and_upcasts :
  merge Sample.surveyed Sample.stations "Field_ID"
  = Ok {| columns := ["Field_ID"; "Elevation"; "Crop_type";
                      "Unnamed: 0"; "Weather_station"];
          rows := [[Int 7; Int (-50); Str "cassaval"; Num 0; Num 2];
                   [Int 9; Int int64_min; Str "tea"; NaN; NaN]] |}.
Proof. reflexivity. Qed.

Example merge_text_with_integer_keys :
  merge Sample.surveyed Sample.station_names "Field_ID" = Raise ValueError.
Proof. reflexivity. Qed.

(** The whole field pipeline on the sample source. *)
Example process_sample :
  process Sample.create_db_engine Sample.query_data Sample.mapping_source
    (Sample.field None)
  = (Ok tt,
     logged INFO "Swapped columns: Annual_yield with Crop_type"
       (logged INFO "Successfully loaded data."
          (Sample.field
             (Some {| columns := ["Field_ID"; "Elevation"; "Crop_type";
                                  "Annual_yield"; "Weather_station"];
                      rows := [[Num 7; Num 50; Str "cassava"; Num (1 # 2); NaN];
                               [Num 8; Num 120; Str "tea"; Num (3 # 4); Num 2]]
                   |})))).
Proof. reflexivity. Qed.

End Examples.

End FieldFacts.

(** * Sorted labels *)

Section SortedFacts.

Context {A : Type} `{EqDecision A}.
Variable ltb : A -> A -> bool.
Hypothesis ltb_irrefl : forall x, ltb x x = false.
Hypothesis ltb_trans : forall x y z, ltb x y = true -> ltb y z = true -> ltb x z = true.
Hypothesis ltb_total : forall x y, x <> y -> ltb x y = false -> ltb y x = true.

Lemma insert_sorted_sorted (x : A) (l : list A) :
  StronglySorted (fun a b => ltb a b = true) l ->
  StronglySorted (fun a b => ltb a b = true) (insert_sorted ltb x l).
Proof.
  induction 1 as [|y l Hl IH Hy]; simpl.
  - repeat constructor.
  - case_decide as Hxy; [by constructor |].
    destruct (ltb x y) eqn:Hlt.
    + constructor; [by constructor |].
      constructor; [done |].
      eapply Forall_impl; [exact Hy |]. intros z Hz. by eapply ltb_trans.
    + constructor; [exact IH |].
      apply Forall_forall. intros z [-> | Hz]%elem_of_insert_sorted.
      * apply ltb_total; [congruence | done].
      * by eapply Forall_forall in Hy.
Qed.

Lemma sorted_unique_sorted (l : list A) :
  StronglySorted (fun a b => ltb a b = true) (sorted_unique ltb l).
Proof.
  unfold sorted_unique. induction l as [|x l IH]; simpl; [constructor |].
  by apply insert_sorted_sorted.
Qed.

Lemma sorted_NoDup (l : list A) :
  StronglySorted (fun a b => ltb a b = true) l -> NoDup l.
Proof.
  induction 1 as [|y l Hl IH Hy]; constructor; [| done].
  intros Hin. eapply Forall_forall in Hy; [| exact Hin].
  by rewrite ltb_irrefl in Hy.
Qed.

End SortedFacts.

Lemma string_compare_refl (s : string) : String.compare s s = Eq.
Proof.
  induction s as [|c s IH]; simpl; [done |].
  unfold Ascii.compare. by rewrite N.compare_refl.
Qed.

Lemma string_compare_trans (a b c : string) :
  String.compare a b = Lt -> String.compare b c = Lt -> String.compare a c = Lt.
Proof.
  revert b c. induction a as [|x a IH]; intros [|y b] [|z c]; simpl; try done.
  destruct (Ascii.compare x y) eqn:Hxy; [| | done].
  - apply Ascii.compare_eq_iff in Hxy as ->.
    destruct (Ascii.compare y z); [apply IH | done | done].
  - intros _. destruct (Ascii.compare y z) eqn:Hyz; [| | done].
    + apply Ascii.compare_eq_iff in Hyz as <-. by rewrite Hxy.
    + intros _. unfold Ascii.compare in *.
      rewrite N.compare_lt_iff in Hxy, Hyz.
      assert (Hxz : (Ascii.N_of_ascii x < Ascii.N_of_ascii z)%N) by lia.
      apply N.compare_lt_iff in Hxz. by rewrite Hxz.
Qed.

Lemma string_ltb_irrefl (s : string) : String.ltb s s = false.
Proof. unfold String.ltb. by rewrite string_compare_refl. Qed.

Lemma string_ltb_trans (a b c : string) :
  String.ltb a b = true -> String.ltb b c = true -> String.ltb a c = true.
Proof.
  unfold String.ltb.
  destruct (String.compare a b) eqn:Hab; try done.
  destruct (String.compare b c) eqn:Hbc; try done.
  by rewrite (string_compare_trans a b c).
Qed.

Lemma string_ltb_total (a b : string) :
  a <> b -> String.ltb a b = false -> String.ltb b a = true.
Proof.
  unfold String.ltb. rewrite (String.compare_antisym b a).
  destruct (String.compare a b) eqn:Hab; try done.
  intros Hne. by apply String.compare_eq_iff in Hab.
Qed.

(** * Further properties of the weather pipeline *)

Module WeatherLaws.
Import WeatherDataProcessor.

Ltac run_weather :=
  cbv beta iota zeta delta
    [bind get lift ret raise modify log set_weather_df].

Section Batch.

Context {pattern : Type}.
Variable re_search : pattern -> string -> result (option (list (option string))).
Variable float : string -> option Q.

Local Abbreviation extract_loop := (extract_loop re_search float).
Local Abbreviation extract_measurement := (extract_measurement re_search float).
Local Abbreviation process_messages := (process_messages re_search float).
Local Abbreviation unmatched := (unmatched re_search).

(** An extraction only ever appends to the logger. *)
Lemma extract_loop_logger items message (self : t pattern) :
  exists extra, logger (extract_loop items message self).2 = logger self ++ extra.
Proof.
  induction items as [|[key pat] items IH].
  - by eexists.
  - simpl. unfold bind, lift, log, modify, float_of, ret.
    destruct (re_search pat message) as [[groups|]|e];
      [| exact IH | exists []; by rewrite app_nil_r].
    destruct (next_not_None groups) as [x|e]; [| by eexists].
    destruct (float x); by eexists.
Qed.

Lemma apply_extract_footprint messages (s0 s' : t pattern) r :
  apply extract_measurement messages s0 = (r, s') ->
  patterns s' = patterns s0 /\ weather_df s' = weather_df s0 /\
  weather_station_data s' = weather_station_data s0 /\
  exists extra, logger s' = logger s0 ++ extra.
Proof.
  revert s0 r s'. induction messages as [|message messages IH]; intros s0 r s'.
  - simpl. unfold ret. intros [= _ <-]. repeat split.
    exists []. by rewrite app_nil_r.
  - simpl. unfold bind at 1.
    destruct (WeatherFacts.extract_measurement_frame re_search float message s0)
      as (Hp & Hdf & Hsrc).
    destruct (extract_loop_logger (patterns s0) message s0) as [extra1 Hlog].
    change (extract_loop (patterns s0) message s0)
      with (extract_measurement message s0) in Hlog.
    destruct (extract_measurement message s0) as [[r1|e] s1]; simpl in *.
    + unfold bind, ret.
      destruct (apply extract_measurement messages s1) as [r2 s2] eqn:Hrun.
      destruct (IH s1 r2 s2 Hrun) as (Hp2 & Hdf2 & Hsrc2 & extra2 & Hlog2).
      assert (s' = s2 -> patterns s' = patterns s0 /\
                weather_df s' = weather_df s0 /\
                weather_station_data s' = weather_station_data s0 /\
                exists extra, logger s' = logger s0 ++ extra) as Hgoal.
      { intros ->. repeat split; try congruence.
        exists (extra1 ++ extra2). by rewrite Hlog2, Hlog, app_assoc. }
      destruct r2; intros [= _ <-]; by apply Hgoal.
    + intros [= _ <-]. repeat split; try done. by exists extra1.
Qed.


(** Its outcome depends on the pattern table alone. *)
Lemma apply_extract_outcome messages (s0 s1 : t pattern) :
  patterns s1 = patterns s0 ->
  (apply extract_measurement messages s1).1
  = (apply extract_measurement messages s0).1.
Proof.
  revert s0 s1. induction messages as [|message messages IH]; intros s0 s1 Hp.
  - done.
  - simpl. unfold bind at 1 3.
    pose proof (WeatherFacts.extract_measurement_outcome re_search float
                  message s0 s1 Hp) as Hout.
    destruct (WeatherFacts.extract_measurement_frame re_search float message s0)
      as (Hp0 & _).
    destruct (WeatherFacts.extract_measurement_frame re_search float message s1)
      as (Hp1 & _).
    destruct (extract_measurement message s0) as [r0 t0].
    destruct (extract_measurement message s1) as [r1 t1].
    simpl in *. subst r1. destruct r0 as [r|e]; [| done].
    unfold bind, ret.
    assert (Hp' : patterns t1 = patterns t0) by congruence.
    specialize (IH t0 t1 Hp').
    destruct (apply extract_measurement messages t0) as [q0 u0].
    destruct (apply extract_measurement messages t1) as [q1 u1].
    simpl in *. subst q1. by destruct q0.
Qed.

(** The ways a run can go: no frame; every message extracted from a
    frame with rows; or an exception, from an extraction or from the
    unpacking of no result. *)
Lemma process_messages_cases (self s1 : t pattern) r :
  process_messages self = (r, s1) ->
  (weather_df self = None /\ r = Ok None /\
   s1 = logged WARNING
          "weather_df is not initialized, skipping message processing." self) \/
  (exists df rs s',
     weather_df self = Some df /\
     apply extract_measurement (Message df) self = (Ok rs, s') /\
     rs <> [] /\
     r = Ok (Some {| Weather_station_ID := Weather_station_ID df;
                     Message := Message df;
                     Measurement := Some rs.*1;
                     Value := Some rs.*2 |}) /\
     s1 = logged INFO "Messages processed and measurements extracted."
            (with_weather_df
               (Some {| Weather_station_ID := Weather_station_ID df;
                        Message := Message df;
                        Measurement := Some rs.*1;
                        Value := Some rs.*2 |}) s')) \/
  (exists df s' e,
     weather_df self = Some df /\
     (apply extract_measurement (Message df) self = (Raise e, s') \/
      apply extract_measurement (Message df) self = (Ok [], s') /\ e = ValueError) /\
     r = Raise e /\ s1 = s').
Proof.
  unfold WeatherDataProcessor.process_messages.
  unfold bind at 1. unfold get at 1.
  destruct (weather_df self) as [df|] eqn:Hdf.
  - unfold bind at 1. unfold bind at 1. unfold bind at 1.
    destruct (apply extract_measurement (Message df) self) as [[rs|e] s'] eqn:Hrun.
    + destruct rs as [|r0 rs].
      * run_weather. simpl. intros [= <- <-]. right. right.
        exists df, s', ValueError. split; [done |]. split; [by right | done].
      * run_weather. simpl. intros [= <- <-]. right. left.
        exists df, (r0 :: rs), s'. by repeat split.
    + intros [= <- <-]. right. right. exists df, s', e.
      split; [done |]. split; [by left | done].
  - run_weather. simpl. rewrite Hdf. intros [= <- <-]. by left.
Qed.

(** A successful run, taken apart. *)
Lemma process_messages_Ok_inv (self s1 : t pattern) out :
  process_messages self = (Ok (Some out), s1) ->
  exists df rs s',
    weather_df self = Some df /\
    apply extract_measurement (Message df) self = (Ok rs, s') /\
    rs <> [] /\
    out = {| Weather_station_ID := Weather_station_ID df;
             Message := Message df;
             Measurement := Some rs.*1;
             Value := Some rs.*2 |} /\
    s1 = logged INFO "Messages processed and measurements extracted."
           (with_weather_df (Some out) s').
Proof.
  unfold WeatherDataProcessor.process_messages.
  unfold bind at 1. unfold get at 1.
  destruct (weather_df self) as [df|] eqn:Hdf.
  - unfold bind at 1. unfold bind at 1. unfold bind at 1.
    destruct (apply extract_measurement (Message df) self) as [[rs|e] s'] eqn:Hrun;
      [| discriminate].
    destruct rs as [|r rs]; [discriminate |].
    run_weather. simpl. intros [= <- <-].
    exists df, (r :: rs), s'. by repeat split.
  - run_weather. simpl. rewrite Hdf. discriminate.
Qed.



(** X3.  Whatever the batch processor does, it leaves the pattern table
    and the source path alone and only appends to the logger; when it
    raises, the frame is the one it started with, and when it returns a
    frame, that frame has the stations and messages it started with. *)
Theorem process_messages_footprint (self : t pattern) :
  patterns (process_messages self).2 = patterns self /\
  weather_station_data (process_messages self).2 = weather_station_data self /\
  (exists extra, logger (process_messages self).2 = logger self ++ extra) /\
  (forall e, (process_messages self).1 = Raise e ->
     weather_df (process_messages self).2 = weather_df self) /\
  (forall out, (process_messages self).1 = Ok (Some out) ->
     weather_df (process_messages self).2 = Some out /\
     exists df, weather_df self = Some df /\
       Weather_station_ID out = Weather_station_ID df /\
       Message out = Message df).
Proof.
  destruct (process_messages self) as [r s1] eqn:Hrun. simpl.
  destruct (process_messages_cases _ _ _ Hrun) as
    [(Hdf & -> & ->) |
     [(df & rs & s' & Hdf & Happ & Hne & -> & ->) |
      (df & s' & e & Hdf & Happ & -> & ->)]].
  - split; [done |]. split; [done |]. split; [by eexists |].
    split; [by intros e | by intros out].
  - destruct (apply_extract_footprint _ _ _ _ Happ)
      as (Hp & Hdf' & Hsrc & extra & Hlog).
    split; [done |]. split; [done |]. split; [| split].
    + exists (extra ++ [(INFO, "Messages processed and measurements extracted.")]).
      simpl. by rewrite Hlog, app_assoc.
    + by intros e.
    + intros out [= <-]. split; [done |]. by exists df.
  - assert (Hfoot : patterns s' = patterns self /\
                    weather_df s' = weather_df self /\
                    weather_station_data s' = weather_station_data self /\
                    exists extra, logger s' = logger self ++ extra).
    { destruct Happ as [Happ | [Happ _]];
        apply (apply_extract_footprint _ _ _ _ Happ). }
    destruct Hfoot as (Hp & Hdf' & Hsrc & Hlog).
    split; [done |]. split; [done |]. split; [done |].
    split; [by intros e0 _ | by intros out].
Qed.

(** X4.  A second run of the batch processor changes nothing: it
    succeeds again and returns the same frame. *)
Theorem process_messages_idempotent (self s1 : t pattern) out :
  process_messages self = (Ok (Some out), s1) ->
  exists s2,
    process_messages s1 = (Ok (Some out), s2) /\ weather_df s2 = Some out.
Proof.
  intros (df & rs & s' & Hdf & Hrun & Hne & Hout & Hs1)%process_messages_Ok_inv.
  destruct (apply_extract_footprint _ _ _ _ Hrun) as (Hp & _).
  assert (Hp1 : patterns s1 = patterns self) by (by subst s1).
  assert (Hdf1 : weather_df s1 = Some out) by (by subst s1).
  assert (Hmsg : Message out = Message df) by (by subst out).
  pose proof (apply_extract_outcome (Message df) self s1 Hp1) as Hsame.
  rewrite Hrun in Hsame. simpl in Hsame.
  destruct (apply extract_measurement (Message df) s1) as [r2 s2] eqn:Hrun2.
  simpl in Hsame. subst r2.
  eexists. unfold WeatherDataProcessor.process_messages.
  unfold bind at 1. unfold get at 1. rewrite Hdf1.
  unfold bind at 1. unfold bind at 1. unfold bind at 1.
  rewrite Hmsg, Hrun2.
  destruct rs as [|r rs]; [done |]. run_weather. simpl.
  rewrite Hout. simpl. done.
Qed.



End Batch.

Section Pipeline.

Context {pattern : Type}.
Variable re_search : pattern -> string -> result (option (list (option string))).
Variable float : string -> option Q.
Variable read_from_web_CSV : string -> result DataFrame.

Local Abbreviation process := (process re_search float read_from_web_CSV).

(** X6.  [process] stops where its stages stop.  When the source raises,
    the exception comes out and the processor is as it was; when the
    source serves a frame without a row, the frame is stored, nothing is
    extracted and [ValueError] comes out. *)
Theorem process_failures (self : t pattern) :
  (forall e, read_from_web_CSV (weather_station_data self) = Raise e ->
     process self = (Raise e, self)) /\
  (forall df, read_from_web_CSV (weather_station_data self) = Ok df ->
     Message df = [] ->
     process self =
       (Raise ValueError,
        logged INFO "Successfully loaded weather station data from the web."
          (with_weather_df (Some df) self))).
Proof.
  split.
  - intros e Hread. unfold WeatherDataProcessor.process, weather_station_mapping.
    run_weather. by rewrite Hread.
  - intros df Hread Hnil.
    unfold WeatherDataProcessor.process, weather_station_mapping.
    unfold bind at 1. unfold bind at 1. unfold get at 1.
    unfold bind at 1. unfold lift at 1. rewrite Hread.
    run_weather. simpl.
    unfold WeatherDataProcessor.process_messages. run_weather. simpl.
    by rewrite Hnil.
Qed.

End Pipeline.

Section Aggregates.

Context {pattern : Type}.

(** X7.  The frame of means is a table: one row of cells per station
    label, one cell per kind label, the station labels in increasing
    order and the kind labels in increasing order, none twice; computing
    it leaves the weather frame as it was. *)
Theorem calculate_means_table (self s' : t pattern) out :
  calculate_means self = (Ok (Some out), s') ->
  length (data out) = length (index out) /\
  Forall (fun row => length row = length (columns out)) (data out) /\
  StronglySorted (fun a b => (a <? b)%Z = true) (index out) /\
  StronglySorted (fun a b => String.ltb a b = true) (columns out) /\
  NoDup (index out) /\ NoDup (columns out) /\
  weather_df s' = weather_df self.
Proof.
  unfold calculate_means. run_weather.
  destruct (weather_df self) as [df|] eqn:Hdf; [| discriminate].
  destruct (group_rows df) as [rows|e]; [| discriminate].
  simpl. intros [= <- <-].
  assert (Hidx : StronglySorted (fun a b => (a <? b)%Z = true)
                   (index (unstack (groupby_mean rows)))).
  { apply sorted_unique_sorted.
    - intros x y z. rewrite !Z.ltb_lt. lia.
    - intros x y Hne. rewrite Z.ltb_ge, Z.ltb_lt. lia. }
  assert (Hcols : StronglySorted (fun a b => String.ltb a b = true)
                    (columns (unstack (groupby_mean rows)))).
  { apply sorted_unique_sorted;
      [apply string_ltb_trans | apply string_ltb_total]. }
  split; [simpl; by rewrite length_fmap |]. split.
  { simpl. apply Forall_fmap, Forall_forall. intros s _. simpl.
    by rewrite length_fmap. }
  split; [exact Hidx |]. split; [exact Hcols |].
  split; [| split; [| exact Hdf]].
  - eapply sorted_NoDup; [| exact Hidx]. intros x. apply Z.ltb_irrefl.
  - eapply sorted_NoDup; [| exact Hcols]. apply string_ltb_irrefl.
Qed.

End Aggregates.

Section Examples.

Local Abbreviation extract := (extract_measurement Sample.re_search Sample.decimal).
Local Abbreviation batch := (process_messages Sample.re_search Sample.decimal).
Local Abbreviation table := Sample.regex_patterns.


Lemma process_messages_empty_frame_witness :
  batch (Sample.weather table (Some (Sample.raw [] [])))
  = (Raise ValueError, Sample.weather table (Some (Sample.raw [] []))).
Proof.
  apply (WeatherFacts.process_messages_empty_frame Sample.re_search Sample.decimal
           (Sample.weather table (Some (Sample.raw [] []))) (Sample.raw [] []));
    reflexivity.
Defined.

Lemma process_messages_idempotent_witness :
  let s0 := Sample.weather table
              (Some (Sample.raw [1; 2]%Z ["temp: 23.4C"; "rainfall heavy"])) in
  let out := Sample.extracted [1; 2]%Z ["temp: 23.4C"; "rainfall heavy"]
               [Some "temperature"; None] [Some (234 # 10)%Q; None] in
  (batch s0).1 = Ok (Some out) /\
  exists s2, batch (batch s0).2 = (Ok (Some out), s2) /\ weather_df s2 = Some out.
Proof.
  intros s0 out. split; [reflexivity |].
  apply (process_messages_idempotent Sample.re_search Sample.decimal
           s0 (batch s0).2 out).
  reflexivity.
Defined.


Lemma process_failures_witness :
  process Sample.re_search Sample.decimal Sample.weather_unreachable
    (Sample.weather table None)
  = (Raise SourceError, Sample.weather table None) /\
  (process Sample.re_search Sample.decimal Sample.weather_header_only
     (Sample.weather table None)).1
  = Raise ValueError.
Proof.
  split.
  - apply (process_failures Sample.re_search Sample.decimal
             Sample.weather_unreachable (Sample.weather table None)).
    reflexivity.
  - erewrite (proj2 (process_failures Sample.re_search Sample.decimal
                       Sample.weather_header_only (Sample.weather table None)));
      reflexivity.
Defined.

Lemma calculate_means_table_witness :
  let s := Sample.weather table
             (Some (Sample.extracted [2; 1; 2]%Z ["45%"; "24.6C"; "21C"]
                      [Some "humidity"; Some "temperature"; Some "temperature"]
                      [Some 45%Q; Some (246 # 10)%Q; Some 21%Q])) in
  let out := {| index := [1; 2]%Z;
                columns := ["humidity"; "temperature"];
                data := [[None; Some (mean [(246 # 10)%Q])];
                         [Some (mean [45%Q]); Some (mean [21%Q])]] |} in
  (calculate_means s).1 = Ok (Some out) /\
  NoDup (index out) /\ NoDup (columns out).
Proof.
  intros s out.
  assert (Hrun : calculate_means s = (Ok (Some out), (calculate_means s).2))
    by (vm_compute; reflexivity).
  destruct (calculate_means_table s _ out Hrun) as (_ & _ & _ & _ & H1 & H2 & _).
  split; [by rewrite Hrun | by split].
Defined.

End Examples.

End WeatherLaws.

(** * Further properties of the field pipeline *)

Module FieldLaws.
Import FieldDataProcessor.

Ltac run_field :=
  cbv beta iota zeta delta
    [bind get lift ret raise modify the_df df_to_subscript set_df log].

Section ColumnRepair.

(** X8.  Column repair reads its configuration before the frame: with no
    pair configured it raises [IndexError], with a pair but no frame it
    raises [AttributeError]; the processor is as it was in both cases. *)
Theorem rename_columns_errors self :
  (columns_to_rename self = [] ->
     rename_columns self = (Raise IndexError, self)) /\
  (forall c1 c2 others,
     columns_to_rename self = (c1, c2) :: others -> df self = None ->
     rename_columns self = (Raise AttributeError, self)).
Proof.
  split.
  - intros Hcfg. unfold rename_columns. run_field. by rewrite Hcfg.
  - intros c1 c2 others Hcfg Hdf. unfold rename_columns. run_field.
    rewrite Hcfg. simpl. by rewrite Hdf.
Qed.

(** X9.  Labels that are not columns are not an error: when neither
    configured label is a column of the frame, column repair leaves the
    frame exactly as it is and still logs the swap. *)
Theorem rename_columns_absent_labels self frame c1 c2 others :
  df self = Some frame ->
  columns_to_rename self = (c1, c2) :: others ->
  c1 ∉ columns frame -> c2 ∉ columns frame ->
  rename_columns self =
    (Ok tt,
     logged INFO ("Swapped columns: " +:+ c1 +:+ " with " +:+ c2)
       (with_df frame self)).
Proof.
  intros Hdf Hcfg Hc1 Hc2.
  pose proof (FieldFacts.extend_temp_name_not_label (columns frame)
                "__temp_name_for_swap__") as Hfresh.
  set (temp_name := extend_temp_name (columns frame) "__temp_name_for_swap__") in *.
  unfold rename_columns. run_field. rewrite Hcfg. simpl. rewrite Hdf.
  unfold rename. simpl. fold temp_name.
  rewrite <- list_fmap_compose.
  rewrite (list_fmap_ext _ id (columns frame)), list_fmap_id; [by destruct frame |].
  intros i label Hlabel%list_elem_of_lookup_2. simpl.
  rewrite lookup_insert_ne by (intros ->; done).
  rewrite lookup_insert_ne by (intros ->; done).
  rewrite lookup_empty. simpl.
  rewrite lookup_singleton_ne by (intros ->; done). done.
Qed.

Lemma swap_label_inj c1 c2 : Inj (=) (=) (swap_label c1 c2).
Proof.
  intros x y Hxy.
  by rewrite <- (FieldFacts.swap_label_involutive c1 c2 x), Hxy,
    FieldFacts.swap_label_involutive.
Qed.

Lemma elem_of_swap_label c1 c2 label (labels : list string) :
  c1 ∈ labels -> c2 ∈ labels ->
  label ∈ swap_label c1 c2 <$> labels <-> label ∈ labels.
Proof.
  intros Hc1 Hc2. rewrite list_elem_of_fmap. split.
  - intros (l & -> & Hl). unfold swap_label. by repeat case_decide.
  - intros Hl. exists (swap_label c1 c2 label).
    split; [by rewrite FieldFacts.swap_label_involutive |].
    unfold swap_label. by repeat case_decide.
Qed.

(** X11.  Column repair keeps a frame in shape: the rows are untouched,
    distinct labels stay distinct, and with both configured labels
    present the labels afterwards are the labels before, reordered. *)
Theorem rename_columns_keeps_shape self frame c1 c2 others :
  df self = Some frame ->
  columns_to_rename self = (c1, c2) :: others ->
  c1 ∈ columns frame ->
  exists out,
    df (rename_columns self).2 = Some out /\
    rows out = rows frame /\
    (well_formed frame -> well_formed out) /\
    (NoDup (columns frame) -> NoDup (columns out)) /\
    (NoDup (columns frame) -> c2 ∈ columns frame ->
       columns out ≡ₚ columns frame).
Proof.
  intros Hdf Hcfg Hc1.
  rewrite (FieldFacts.rename_columns_runs self frame c1 c2 others Hdf Hcfg Hc1).
  eexists. split; [reflexivity |]. simpl. split; [done |]. split; [| split].
  - unfold well_formed. simpl. by rewrite length_fmap.
  - apply NoDup_fmap_2, swap_label_inj.
  - intros Hnd Hc2. apply NoDup_Permutation; [| done |].
    + by apply NoDup_fmap_2; [apply swap_label_inj |].
    + intros label. by apply elem_of_swap_label.
Qed.

End ColumnRepair.

Section Corrections.

Lemma getitem_missing frame label :
  label ∉ columns frame -> getitem frame label = Raise (KeyError label).
Proof. intros Hl%index_of_None. unfold getitem. by rewrite Hl. Qed.

Lemma traverse_abs_cell_text (col : list cell) :
  (exists r s, col !! r = Some (Str s)) ->
  traverse abs_cell col = Raise TypeError.
Proof.
  induction col as [|c col IH]; intros (r & s & Hr); [done |].
  destruct r as [|r]; simpl in Hr.
  - injection Hr as ->. done.
  - simpl. destruct (abs_cell c) as [c'|e] eqn:Hc.
    + rewrite IH; [done |]. by exists r, s.
    + destruct c; simpl in Hc; congruence.
Qed.



Lemma at_label_lt frame r label :
  well_formed frame -> label ∈ columns frame ->
  (r < length (rows frame))%nat ->
  exists c, at_label frame r label = Some c.
Proof.
  intros Hwf [i Hi]%index_of_elem Hr. unfold at_label. rewrite Hi. simpl.
  destruct (lookup_lt_is_Some_2 (rows frame) r Hr) as [row Hrow].
  rewrite Hrow. simpl.
  pose proof (Forall_lookup_1 _ _ _ _ Hwf Hrow) as Hlen. simpl in Hlen.
  apply index_of_Some, lookup_lt_Some in Hi.
  apply lookup_lt_is_Some_2. lia.
Qed.

Lemma at_label_ge frame r label :
  (length (rows frame) <= r)%nat -> at_label frame r label = None.
Proof.
  intros Hr%lookup_ge_None. unfold at_label.
  destruct (index_of label (columns frame)); simpl; [| done].
  by rewrite Hr.
Qed.


(** A run of the corrections, with the two columns it assigns. *)
Lemma apply_corrections_runs self frame column_name abs_column :
  df self = Some frame ->
  well_formed frame ->
  abs_column ∈ columns frame ->
  column_name ∈ columns frame ->
  column_name <> abs_column ->
  (forall r s, at_label frame r abs_column <> Some (Str s)) ->
  exists corrected renamed,
    apply_corrections column_name abs_column self =
      (Ok tt,
       with_df (setitem (setitem frame abs_column corrected) column_name renamed)
         self) /\
    length corrected = length (rows frame) /\
    length renamed = length (rows frame) /\
    (forall r c, at_label frame r abs_column = Some c ->
       exists c', corrected !! r = Some c' /\ abs_cell c = Ok c') /\
    (forall r, renamed !! r =
       get_or_self (values_to_rename self) <$> at_label frame r column_name).
Proof.
  intros Hdf Hwf Habs Hcol Hne Hnum.
  destruct (FieldFacts.getitem_at_label frame abs_column Hwf Habs)
    as (elevations & Hget1 & Hlen1 & Hcells1).
  destruct (FieldFacts.traverse_abs_cell elevations)
    as (corrected & Htrav & Hlen2 & Hcorr).
  { intros r s. rewrite Hcells1. apply Hnum. }
  set (frame1 := setitem frame abs_column corrected).
  assert (Hlenc : length corrected = length (rows frame)) by congruence.
  assert (Hwf1 : well_formed frame1) by by apply FieldFacts.setitem_well_formed.
  assert (Hcols1 : columns frame1 = columns frame)
    by by apply FieldFacts.setitem_columns.
  assert (Hcol1 : column_name ∈ columns frame1) by by rewrite Hcols1.
  destruct (FieldFacts.getitem_at_label frame1 column_name Hwf1 Hcol1)
    as (crops & Hget2 & Hlen3 & Hcells2).
  exists corrected, (get_or_self (values_to_rename self) <$> crops).
  split; [| split; [done | split; [| split]]].
  - unfold apply_corrections. run_field. rewrite Hdf, Hget1, Htrav. simpl.
    fold frame1. by rewrite Hget2.
  - rewrite length_fmap, Hlen3. by apply FieldFacts.setitem_length.
  - intros r c Hc. rewrite <- Hcells1 in Hc. apply (Hcorr r c Hc).
  - intros r. rewrite list_lookup_fmap, Hcells2.
    unfold frame1. rewrite FieldFacts.at_label_setitem by done.
    by rewrite decide_False.
Qed.

(** X12.  The corrections fail before they change anything when the
    frame has no [abs_column] ([KeyError]) or when that column holds text
    ([TypeError]). *)
Theorem apply_corrections_rejects self frame column_name abs_column :
  df self = Some frame ->
  (abs_column ∉ columns frame ->
     apply_corrections column_name abs_column self
     = (Raise (KeyError abs_column), self)) /\
  (well_formed frame -> abs_column ∈ columns frame ->
     (exists r s, at_label frame r abs_column = Some (Str s)) ->
     apply_corrections column_name abs_column self = (Raise TypeError, self)).
Proof.
  intros Hdf. split.
  - intros Habs. unfold apply_corrections. run_field.
    by rewrite Hdf, getitem_missing.
  - intros Hwf Habs (r & s & Hr).
    destruct (FieldFacts.getitem_at_label frame abs_column Hwf Habs)
      as (elevations & Hget1 & _ & Hcells1).
    unfold apply_corrections. run_field. rewrite Hdf, Hget1.
    rewrite traverse_abs_cell_text; [done |].
    exists r, s. by rewrite Hcells1.
Qed.



End Corrections.

Section Merge.

Variable read_from_web_CSV : string -> result DataFrame.

Local Abbreviation weather_station_mapping :=
  (weather_station_mapping read_from_web_CSV).

(** X15.  The merge fails with the processor untouched when the mapping
    cannot be fetched (the source's exception), when no frame was
    ingested ([AttributeError], after the fetch) and when either frame
    lacks the [Field_ID] column ([KeyError]). *)
Theorem weather_station_mapping_failures self :
  (forall e, read_from_web_CSV (weather_map_data self) = Raise e ->
     weather_station_mapping self = (Raise e, self)) /\
  (forall mapping, read_from_web_CSV (weather_map_data self) = Ok mapping ->
     df self = None ->
     weather_station_mapping self = (Raise AttributeError, self)) /\
  (forall mapping frame,
     read_from_web_CSV (weather_map_data self) = Ok mapping ->
     df self = Some frame ->
     "Field_ID" ∉ columns frame \/ "Field_ID" ∉ columns mapping ->
     weather_station_mapping self = (Raise (KeyError "Field_ID"), self)).
Proof.
  split; [| split].
  - intros e Hread. unfold FieldDataProcessor.weather_station_mapping.
    run_field. by rewrite Hread.
  - intros mapping Hread Hdf. unfold FieldDataProcessor.weather_station_mapping.
    run_field. by rewrite Hread, Hdf.
  - intros mapping frame Hread Hdf Hmissing.
    unfold FieldDataProcessor.weather_station_mapping.
    run_field. rewrite Hread, Hdf. unfold merge.
    destruct Hmissing as [Hl%index_of_None | Hr%index_of_None].
    + by rewrite Hl.
    + rewrite Hr. by destruct (index_of "Field_ID" (columns frame)).
Qed.

(** A run of the merge, with the rows it builds. *)
Lemma weather_station_mapping_runs self frame mapping kl kr :
  df self = Some frame ->
  read_from_web_CSV (weather_map_data self) = Ok mapping ->
  joinable frame mapping "Field_ID" ->
  index_of "Field_ID" (columns frame) = Some kl ->
  index_of "Field_ID" (columns mapping) = Some kr ->
  weather_station_mapping self =
    (Ok tt,
     with_df {| columns := columns frame ++ delete kr (columns mapping);
                rows := rows frame
                        ≫= joined kl kr (length (columns mapping) - 1)
                             (some_unmatched kl kr (rows frame) (rows mapping))
                             (rows mapping) |} self).
Proof.
  intros Hdf Hread Hjoin Hkl Hkr.
  unfold FieldDataProcessor.weather_station_mapping. run_field.
  rewrite Hread, Hdf.
  by rewrite (FieldFacts.merge_joinable frame mapping "Field_ID" kl kr Hjoin Hkl Hkr).
Qed.

Lemma length_joined kl kr width fill right_rows lrow :
  length (joined kl kr width fill right_rows lrow)
  = (1 `max` length (matches kl kr right_rows lrow))%nat.
Proof.
  unfold joined. destruct (matches kl kr right_rows lrow) as [|rrow rrows];
    [done |].
  rewrite length_fmap. simpl. lia.
Qed.

(** X16.  On joinable frames the merge has one output row for a field
    row without a mapping record and one per mapping record of its key
    otherwise; so it keeps the number of rows when no field has two
    mapping records, and grows the frame when one has. *)
Theorem weather_station_mapping_row_count self frame mapping kl kr :
  df self = Some frame ->
  read_from_web_CSV (weather_map_data self) = Ok mapping ->
  joinable frame mapping "Field_ID" ->
  index_of "Field_ID" (columns frame) = Some kl ->
  index_of "Field_ID" (columns mapping) = Some kr ->
  exists out,
    weather_station_mapping self = (Ok tt, with_df out self) /\
    length (rows out) =
      sum_list_with
        (fun lrow => (1 `max` length (matches kl kr (rows mapping) lrow))%nat)
        (rows frame) /\
    (Forall (fun lrow => (length (matches kl kr (rows mapping) lrow) <= 1)%nat)
            (rows frame) ->
     length (rows out) = length (rows frame)) /\
    (Exists (fun lrow => (2 <= length (matches kl kr (rows mapping) lrow))%nat)
            (rows frame) ->
     (length (rows frame) < length (rows out))%nat).
Proof.
  intros Hdf Hread Hjoin Hkl Hkr.
  pose proof (weather_station_mapping_runs self frame mapping kl kr
                Hdf Hread Hjoin Hkl Hkr) as Hrun.
  eexists. split; [exact Hrun |]. simpl.
  generalize (some_unmatched kl kr (rows frame) (rows mapping)) as fill.
  generalize (rows frame) as lrows.
  assert (Hlen : forall fill lrows,
    length (lrows ≫= joined kl kr (length (columns mapping) - 1) fill (rows mapping))
    = sum_list_with
        (fun lrow => (1 `max` length (matches kl kr (rows mapping) lrow))%nat)
        lrows).
  { intros fill. induction lrows as [|lrow lrows IH]; [done |].
    rewrite bind_cons, length_app, length_joined, IH. done. }
  intros lrows fill. split; [apply Hlen | split].
  - rewrite Hlen. induction 1 as [|lrow lrows Hone _ IH]; [done |].
    simpl. rewrite IH. lia.
  - rewrite Hlen. clear.
    assert (Hle : forall rws,
      (length rws <= sum_list_with
         (fun lrow => (1 `max` length (matches kl kr (rows mapping) lrow))%nat)
         rws)%nat).
    { induction rws as [|row rws IH]; simpl; lia. }
    induction 1 as [lrow lrows Htwo | lrow lrows _ IH]; simpl.
    + specialize (Hle lrows). lia.
    + lia.
Qed.

(** X17.  On joinable frames the merge invents no row: every output row
    is a field row followed either by the station cells of a mapping
    record with an equal key (the record without its key cell, its
    integers as floats when some field has no record), or, when the field
    row has no such record, by missing cells. *)
Theorem weather_station_mapping_provenance self frame mapping kl kr :
  df self = Some frame ->
  read_from_web_CSV (weather_map_data self) = Ok mapping ->
  joinable frame mapping "Field_ID" ->
  index_of "Field_ID" (columns frame) = Some kl ->
  index_of "Field_ID" (columns mapping) = Some kr ->
  exists out,
    weather_station_mapping self = (Ok tt, with_df out self) /\
    forall orow, orow ∈ rows out ->
      exists lrow, lrow ∈ rows frame /\
        ((matches kl kr (rows mapping) lrow = [] /\
          orow = lrow ++ replicate (length (columns mapping) - 1) NaN) \/
         (exists rrow, rrow ∈ rows mapping /\
            key_eqb (default NaN (lrow !! kl)) (default NaN (rrow !! kr)) = true /\
            ((Forall (fun lrow => matches kl kr (rows mapping) lrow <> [])
                     (rows frame) /\
              orow = lrow ++ delete kr rrow) \/
             (Exists (fun lrow => matches kl kr (rows mapping) lrow = [])
                     (rows frame) /\
              orow = lrow ++ (upcast <$> delete kr rrow))))).
Proof.
  intros Hdf Hread Hjoin Hkl Hkr.
  pose proof (weather_station_mapping_runs self frame mapping kl kr
                Hdf Hread Hjoin Hkl Hkr) as Hrun.
  eexists. split; [exact Hrun |]. simpl.
  assert (Hfill : forall lrows,
    if some_unmatched kl kr lrows (rows mapping)
    then Exists (fun lrow => matches kl kr (rows mapping) lrow = []) lrows
    else Forall (fun lrow => matches kl kr (rows mapping) lrow <> []) lrows).
  { induction lrows as [|lrow lrows IH]; [by constructor |].
    unfold some_unmatched in *. simpl.
    destruct (matches kl kr (rows mapping) lrow) as [|m ms] eqn:Hm; simpl.
    - by left.
    - destruct (existsb _ lrows).
      + by right.
      + constructor; [by rewrite Hm | done]. }
  specialize (Hfill (rows frame)).
  intros orow (lrow & Hin & Hlrow)%list_elem_of_bind.
  exists lrow. split; [done |]. unfold joined in Hin.
  destruct (matches kl kr (rows mapping) lrow) as [|m ms] eqn:Hm.
  - left. split; [done |]. by apply list_elem_of_singleton in Hin.
  - right. apply list_elem_of_fmap in Hin as (rrow & -> & Hrrow).
    rewrite <- Hm in Hrrow. unfold matches in Hrrow.
    apply list_elem_of_filter in Hrrow as [Hkey Hrrow].
    exists rrow. split; [done |]. split; [done |].
    unfold station_cells.
    destruct (some_unmatched kl kr (rows frame) (rows mapping));
      [by right | by left].
Qed.

(** X18.  The merge of two joinable frames is well-formed, with distinct
    labels: every output row has one cell per output label. *)
Theorem weather_station_mapping_well_formed self frame mapping kl kr :
  df self = Some frame ->
  read_from_web_CSV (weather_map_data self) = Ok mapping ->
  joinable frame mapping "Field_ID" ->
  index_of "Field_ID" (columns frame) = Some kl ->
  index_of "Field_ID" (columns mapping) = Some kr ->
  exists out,
    weather_station_mapping self = (Ok tt, with_df out self) /\
    well_formed out /\
    NoDup (columns out).
Proof.
  intros Hdf Hread Hjoin Hkl Hkr.
  pose proof (weather_station_mapping_runs self frame mapping kl kr
                Hdf Hread Hjoin Hkl Hkr) as Hrun.
  destruct Hjoin as (Hwfl & Hwfr & Hndl & Hndr & _ & _ & Hshared & _).
  pose proof (index_of_Some _ _ _ Hkr) as Hr.
  assert (Hw : length (delete kr (columns mapping))
               = (length (columns mapping) - 1)%nat).
  { apply length_delete. by eexists. }
  eexists. split; [exact Hrun |]. split.
  - unfold well_formed. simpl. rewrite length_app, Hw.
    apply Forall_forall. intros orow (lrow & Hin & Hlrow)%list_elem_of_bind.
    apply list_elem_of_lookup_1 in Hlrow as [r Hrow].
    pose proof (Forall_lookup_1 _ _ _ _ Hwfl Hrow) as Hll. simpl in Hll.
    unfold joined in Hin.
    destruct (matches kl kr (rows mapping) lrow) as [|m ms] eqn:Hm.
    + apply list_elem_of_singleton in Hin as ->.
      by rewrite length_app, length_replicate, Hll.
    + apply list_elem_of_fmap in Hin as (rrow & -> & Hrrow).
      rewrite <- Hm in Hrrow. unfold matches in Hrrow.
      apply list_elem_of_filter in Hrrow as [_ Hrrow].
      apply list_elem_of_lookup_1 in Hrrow as [j Hj].
      pose proof (Forall_lookup_1 _ _ _ _ Hwfr Hj) as Hrl. simpl in Hrl.
      assert (Hdel : length (delete kr rrow) = (length (columns mapping) - 1)%nat).
      { rewrite length_delete, Hrl; [done |].
        apply lookup_lt_is_Some. apply lookup_lt_Some in Hr. lia. }
      rewrite length_app, Hll. unfold station_cells.
      destruct (some_unmatched kl kr (rows frame) (rows mapping));
        by rewrite ?length_fmap, Hdel.
  - simpl. apply NoDup_app. split; [done |]. split.
    + intros label Hl Hdel.
      assert (label = "Field_ID") as ->.
      { apply Hshared; [done |]. by eapply list_elem_of_delete_inv. }
      by apply (FieldFacts.NoDup_not_elem_delete (columns mapping) kr "Field_ID").
    + eapply sublist_NoDup; [exact Hndr | apply sublist_delete].
Qed.

End Merge.

Section Drop.

Lemma drop_row_lookup label (labels : list string) (row : list cell) l :
  length row = length labels -> l <> label ->
  (i ← index_of l (filter (fun x => x <> label) labels);
   (filter (fun p : string * cell => p.1 <> label) (zip labels row)).*2 !! i)
  = (i ← index_of l labels; row !! i).
Proof.
  revert row. induction labels as [|c labels IH]; intros [|x row] Hlen Hl;
    try done.
  simpl in Hlen. injection Hlen as Hlen. specialize (IH row Hlen Hl).
  cbn [zip zip_with]. rewrite !filter_cons. simpl.
  destruct (decide (c <> label)) as [Hc|Hc].
  - cbn [fmap list_fmap index_of]. destruct (decide (l = c)) as [->|Hlc]; [done |].
    destruct (index_of l (filter (fun x => x <> label) labels)) as [i|];
      destruct (index_of l labels) as [j|]; simpl in *; done.
  - rewrite decide_False by (intros ->; by apply Hc).
    destruct (index_of l labels) as [j|]; simpl in *; exact IH.
Qed.

Lemma drop_row_length label (labels : list string) (row : list cell) :
  length row = length labels ->
  length (filter (fun p : string * cell => p.1 <> label) (zip labels row)).*2
  = length (filter (fun x => x <> label) labels).
Proof.
  revert row. induction labels as [|c labels IH]; intros [|x row] Hlen;
    try done.
  simpl in Hlen. injection Hlen as Hlen. specialize (IH row Hlen).
  cbn [zip zip_with]. rewrite !filter_cons. simpl.
  destruct (decide (c <> label)); simpl; [f_equal |]; exact IH.
Qed.

(** X19.  Dropping a label raises [KeyError] when no column has it;
    otherwise no column has it afterwards, the frame stays well-formed
    with the same number of rows, and every other label reads the same
    cells as before. *)
Theorem drop_removes_label frame label :
  (label ∉ columns frame -> drop frame label = Raise (KeyError label)) /\
  (label ∈ columns frame -> well_formed frame ->
     exists out,
       drop frame label = Ok out /\
       (label ∉ columns out) /\
       well_formed out /\
       length (rows out) = length (rows frame) /\
       forall r l, l <> label -> at_label out r l = at_label frame r l).
Proof.
  unfold drop. split.
  - intros Hl. by rewrite decide_False.
  - intros Hl Hwf. rewrite decide_True by done.
    eexists. split; [reflexivity |]. simpl.
    split; [| split; [| split]].
    + rewrite list_elem_of_filter. by intros [? _].
    + unfold well_formed. simpl. apply Forall_fmap, Forall_forall.
      intros row Hrow%list_elem_of_lookup_1. destruct Hrow as [r Hr].
      simpl. apply drop_row_length.
      apply (Forall_lookup_1 _ _ _ _ Hwf Hr).
    + by rewrite length_fmap.
    + intros r l Hne. unfold at_label. simpl.
      rewrite list_lookup_fmap.
      destruct (rows frame !! r) as [row|] eqn:Hrow; simpl.
      * pose proof (Forall_lookup_1 _ _ _ _ Hwf Hrow) as Hlen. simpl in Hlen.
        pose proof (drop_row_lookup label (columns frame) row l Hlen Hne) as Heq.
        destruct (index_of l (filter (fun x => x <> label) (columns frame)));
          destruct (index_of l (columns frame)); simpl in *; done.
      * destruct (index_of l (filter (fun x => x <> label) (columns frame)));
          destruct (index_of l (columns frame)); done.
Qed.

End Drop.

Section Pipeline.

Variable engine : Type.
Variable create_db_engine : string -> result engine.
Variable query_data : engine -> string -> result DataFrame.
Variable read_from_web_CSV : string -> result DataFrame.

Local Abbreviation process :=
  (process create_db_engine query_data read_from_web_CSV).

Lemma bind_Ok_inv {S A B} (c : M S A) (k : A -> M S B) s b s' :
  bind c k s = (Ok b, s') ->
  exists a s1, c s = (Ok a, s1) /\ k a s1 = (Ok b, s').
Proof.
  unfold bind. destruct (c s) as [[a|e] s1]; [| discriminate].
  intros Hk. by exists a, s1.
Qed.

(** X20.  A [process] that succeeds ends on a frame without the
    [Unnamed: 0] column. *)
Theorem process_drops_unnamed self s' :
  process self = (Ok tt, s') ->
  exists out, df s' = Some out /\ "Unnamed: 0" ∉ columns out.
Proof.
  unfold FieldDataProcessor.process.
  intros (_ & s1 & _ & Hrest)%bind_Ok_inv.
  apply bind_Ok_inv in Hrest as (_ & s2 & _ & Hrest).
  apply bind_Ok_inv in Hrest as (_ & s3 & _ & Hrest).
  apply bind_Ok_inv in Hrest as (_ & s4 & _ & Hrest).
  apply bind_Ok_inv in Hrest as (frame & s5 & _ & Hrest).
  apply bind_Ok_inv in Hrest as (dropped & s6 & Hdrop & Hset).
  unfold lift in Hdrop. injection Hdrop as Hdrop <-.
  unfold set_df, modify in Hset. injection Hset as <-.
  exists dropped. split; [done |].
  unfold drop in Hdrop. case_decide; [| discriminate].
  injection Hdrop as <-. simpl.
  rewrite list_elem_of_filter. by intros [? _].
Qed.

End Pipeline.

Section Examples.

Lemma rename_columns_errors_witness :
  rename_columns (Sample.unconfigured (Some Sample.fields))
  = (Raise IndexError, Sample.unconfigured (Some Sample.fields)) /\
  rename_columns (Sample.field None) = (Raise AttributeError, Sample.field None).
Proof.
  split.
  - apply (rename_columns_errors (Sample.unconfigured (Some Sample.fields))).
    reflexivity.
  - apply (proj2 (rename_columns_errors (Sample.field None))
             "Annual_yield" "Crop_type" []); reflexivity.
Defined.

Lemma rename_columns_absent_labels_witness :
  df (rename_columns (Sample.field (Some Sample.station_mapping))).2
  = Some Sample.station_mapping.
Proof.
  rewrite (rename_columns_absent_labels
             (Sample.field (Some Sample.station_mapping))
             Sample.station_mapping "Annual_yield" "Crop_type" []).
  - reflexivity.
  - reflexivity.
  - reflexivity.
  - intros Hin. by repeat (apply elem_of_cons in Hin as [Hin | Hin]; [done |]);
      apply elem_of_nil in Hin.
  - intros Hin. by repeat (apply elem_of_cons in Hin as [Hin | Hin]; [done |]);
      apply elem_of_nil in Hin.
Defined.

Lemma rename_columns_involutive_witness :
  exists self',
    (rename_columns ;;; rename_columns) (Sample.field (Some Sample.fields))
    = (Ok tt, self') /\
    df self' = Some Sample.fields.
Proof.
  apply (FieldFacts.rename_columns_involutive (Sample.field (Some Sample.fields))
           Sample.fields "Annual_yield" "Crop_type" []).
  - reflexivity.
  - reflexivity.
  - by repeat constructor.
  - by repeat constructor.
Defined.

Lemma rename_columns_keeps_shape_witness :
  exists out,
    df (rename_columns (Sample.field (Some Sample.fields))).2 = Some out /\
    well_formed out /\ NoDup (columns out) /\
    columns out ≡ₚ columns Sample.fields.
Proof.
  destruct (rename_columns_keeps_shape (Sample.field (Some Sample.fields))
              Sample.fields "Annual_yield" "Crop_type" [])
    as (out & Hdf & _ & Hwf & Hnd & Hperm).
  - reflexivity.
  - reflexivity.
  - by repeat constructor.
  - assert (Hnodup : NoDup (columns Sample.fields)).
    { apply NoDup_ListNoDup. repeat constructor;
        cbn; intros H; repeat (destruct H as [H | H]; [discriminate H |]); done. }
    exists out. split; [exact Hdf |]. split; [| split].
    + apply Hwf. by repeat constructor.
    + by apply Hnd.
    + apply Hperm; [done |]. by repeat constructor.
Defined.

Lemma apply_corrections_rejects_witness :
  apply_corrections "Crop_type" "Elevation"
    (Sample.field (Some Sample.station_mapping))
  = (Raise (KeyError "Elevation"), Sample.field (Some Sample.station_mapping)) /\
  apply_corrections "Crop_type" "Annual_yield" (Sample.field (Some Sample.fields))
  = (Raise TypeError, Sample.field (Some Sample.fields)).
Proof.
  split.
  - apply (apply_corrections_rejects (Sample.field (Some Sample.station_mapping))
             Sample.station_mapping "Crop_type" "Elevation" eq_refl).
    intros Hin. by repeat (apply elem_of_cons in Hin as [Hin | Hin]; [done |]);
      apply elem_of_nil in Hin.
  - apply (proj2 (apply_corrections_rejects (Sample.field (Some Sample.fields))
                    Sample.fields "Crop_type" "Annual_yield" eq_refl)).
    + by repeat constructor.
    + by repeat constructor.
    + by exists 0%nat, "cassaval".
Defined.

(** Without a frame the first subscript already fails. *)
Example apply_corrections_without_frame :
  apply_corrections "Crop_type" "Elevation" (Sample.field None)
  = (Raise TypeError, Sample.field None).
Proof. reflexivity. Qed.



Lemma weather_station_mapping_failures_witness :
  weather_station_mapping Sample.mapping_unreachable
    (Sample.field (Some Sample.fields))
  = (Raise SourceError, Sample.field (Some Sample.fields)) /\
  weather_station_mapping Sample.mapping_source (Sample.field None)
  = (Raise AttributeError, Sample.field None) /\
  weather_station_mapping Sample.mapping_source
    (Sample.field (Some Sample.elevations_only))
  = (Raise (KeyError "Field_ID"), Sample.field (Some Sample.elevations_only)).
Proof.
  split; [| split].
  - apply (weather_station_mapping_failures Sample.mapping_unreachable
             (Sample.field (Some Sample.fields))).
    reflexivity.
  - apply (proj1 (proj2 (weather_station_mapping_failures Sample.mapping_source
                           (Sample.field None))) Sample.station_mapping);
      reflexivity.
  - apply (proj2 (proj2 (weather_station_mapping_failures Sample.mapping_source
                           (Sample.field (Some Sample.elevations_only))))
             Sample.station_mapping Sample.elevations_only);
      [reflexivity | reflexivity |].
    left. intros Hin.
    by repeat (apply elem_of_cons in Hin as [Hin | Hin]; [done |]);
      apply elem_of_nil in Hin.
Defined.

Lemma weather_station_mapping_row_count_witness :
  exists out,
    weather_station_mapping Sample.mapping_source
      (Sample.field (Some Sample.fields_repaired))
    = (Ok tt, Sample.field (Some out)) /\
    length (rows out) = 2%nat.
Proof.
  destruct (weather_station_mapping_row_count Sample.mapping_source
              (Sample.field (Some Sample.fields_repaired))
              Sample.fields_repaired Sample.station_mapping 0%nat 1%nat)
    as (out & Hrun & _ & Hsame & _); try reflexivity.
  - FieldFacts.sample_joinable.
  - exists out. split; [exact Hrun |]. rewrite Hsame; [reflexivity |].
    repeat constructor.
Defined.

Lemma weather_station_mapping_provenance_witness :
  exists out,
    weather_station_mapping Sample.mapping_source
      (Sample.field (Some Sample.fields_repaired))
    = (Ok tt, Sample.field (Some out)) /\
    forall orow, orow ∈ rows out ->
      exists lrow tail, lrow ∈ rows Sample.fields_repaired /\ orow = lrow ++ tail.
Proof.
  destruct (weather_station_mapping_provenance Sample.mapping_source
              (Sample.field (Some Sample.fields_repaired))
              Sample.fields_repaired Sample.station_mapping 0%nat 1%nat)
    as (out & Hrun & Hfrom); try reflexivity.
  - FieldFacts.sample_joinable.
  - exists out. split; [exact Hrun |].
    intros orow Horow.
    destruct (Hfrom orow Horow)
      as (lrow & Hl & [[_ ->] | (rrow & _ & _ & [[_ ->] | [_ ->]])]);
      by eexists lrow, _.
Defined.

Lemma weather_station_mapping_well_formed_witness :
  exists out,
    weather_station_mapping Sample.mapping_source
      (Sample.field (Some Sample.fields_repaired))
    = (Ok tt, Sample.field (Some out)) /\
    well_formed out /\
    NoDup (columns out).
Proof.
  apply (weather_station_mapping_well_formed Sample.mapping_source
           (Sample.field (Some Sample.fields_repaired))
           Sample.fields_repaired Sample.station_mapping 0%nat 1%nat);
    try reflexivity.
  FieldFacts.sample_joinable.
Defined.

Lemma drop_removes_label_witness :
  drop Sample.fields "Unnamed: 0" = Raise (KeyError "Unnamed: 0") /\
  exists out,
    drop Sample.station_mapping "Unnamed: 0" = Ok out /\
    columns out = ["Field_ID"; "Weather_station"] /\
    at_label out 0 "Weather_station" = Some (Num 2).
Proof.
  split.
  - apply (drop_removes_label Sample.fields "Unnamed: 0").
    intros Hin. by repeat (apply elem_of_cons in Hin as [Hin | Hin]; [done |]);
      apply elem_of_nil in Hin.
  - destruct (proj2 (drop_removes_label Sample.station_mapping "Unnamed: 0"))
      as (out & Hdrop & _ & _ & _ & Hcells).
    + by repeat constructor.
    + by repeat constructor.
    + exists out. split; [exact Hdrop |]. rewrite Hcells by discriminate.
      split; [| reflexivity].
      vm_compute in Hdrop. by injection Hdrop as <-.
Defined.

Lemma process_drops_unnamed_witness :
  exists out,
    df (process Sample.create_db_engine Sample.query_data Sample.mapping_source
          (Sample.field None)).2 = Some out /\
    "Unnamed: 0" ∉ columns out.
Proof.
  apply (process_drops_unnamed unit Sample.create_db_engine Sample.query_data
           Sample.mapping_source (Sample.field None)).
  vm_compute. reflexivity.
Defined.

End Examples.

End FieldLaws.

(** * Properties of the ingestion helpers *)

Module IngestionLaws.
Import data_ingestion.

Section Library.

Variable exc : Type.
Variable str : exc -> string.
Variable is_ImportError is_ValueError is_EmptyDataError is_Exception : exc -> bool.
Variable engine : Type.
Variable create_engine : string -> exc + engine.
Variable connect : engine -> option exc.
Variable read_sql_query : engine -> string -> exc + FieldDataProcessor.DataFrame.

Local Abbreviation create_db_engine :=
  (create_db_engine exc str is_ImportError is_Exception engine create_engine connect).
Local Abbreviation query_data :=
  (query_data exc str is_ValueError is_Exception engine connect read_sql_query).

Ltac run_ingestion :=
  cbv beta iota zeta delta
    [data_ingestion.create_db_engine data_ingestion.query_data
     data_ingestion.read_from_web_CSV try_except and_then connected called emit
     returning raising dispatch ValueError_instance EmptyDataError_instance
     ImportError_instance Exception_instance].

(** X21.  [query_data] never returns an empty frame: what it returns is
    the frame the query read, over a connection that opened, and it has
    a row and a column. *)
Theorem query_data_never_empty eng sql_query logger df logger' :
  query_data eng sql_query logger = (Returned df, logger') ->
  empty df = false /\
  connect eng = None /\
  read_sql_query eng sql_query = inr df /\
  logger' = logger ++ [(INFO, "Query executed successfully.")].
Proof.
  run_ingestion.
  destruct (connect eng) as [e|].
  - destruct (is_ValueError e); [discriminate |].
    destruct (is_Exception e); discriminate.
  - destruct (read_sql_query eng sql_query) as [e|df0].
    + destruct (is_ValueError e); [discriminate |].
      destruct (is_Exception e); discriminate.
    + destruct (empty df0) eqn:Hempty; [discriminate |].
      by intros [= <- <-].
Qed.

(** X22.  On an empty result [query_data] raises its own [ValueError],
    and the failure is logged twice: once where it is raised and once by
    the [except ValueError] clause that catches it and raises it again. *)
Theorem query_data_empty_result eng sql_query logger df :
  connect eng = None ->
  read_sql_query eng sql_query = inr df ->
  empty df = true ->
  query_data eng sql_query logger =
    (Raised (NewValueError "The query returned an empty DataFrame."),
     logger ++ [(ERROR, "The query returned an empty DataFrame.");
                (ERROR, "SQL query failed. Error: The query returned an empty DataFrame.")]).
Proof.
  intros Hconnect Hread Hempty. run_ingestion.
  rewrite Hconnect, Hread, Hempty. by rewrite <- app_assoc.
Qed.

(** X24.  When creating or testing the engine raises an [ImportError],
    [create_db_engine] does not raise it again: the clause reads a local
    name that is not bound and the failed read is what comes out, after
    the error was logged. *)
Theorem create_db_engine_import_error db_path logger e :
  (create_engine db_path = inl e \/
   exists eng, create_engine db_path = inr eng /\ connect eng = Some e) ->
  is_ImportError e = true ->
  create_db_engine db_path logger =
    (Raised (UnboundLocalError "e"),
     logger ++ [(ERROR, "SQLAlchemy is required to use this function. Please install it first.")]).
Proof.
  intros [Hcreate | (eng & Hcreate & Hconnect)] Himport; run_ingestion.
  - by rewrite Hcreate, Himport.
  - by rewrite Hcreate, Hconnect, Himport.
Qed.

(** X25.  An engine that [create_db_engine] returns is one whose test
    connection opened; any other exception than an [ImportError] comes
    out as the library raised it. *)
Theorem create_db_engine_outcome db_path logger logger' :
  (forall eng, create_db_engine db_path logger = (Returned eng, logger') ->
     create_engine db_path = inr eng /\ connect eng = None) /\
  (forall e, create_db_engine db_path logger = (Raised (Library e), logger') ->
     is_ImportError e = false /\
     (create_engine db_path = inl e \/
      exists eng, create_engine db_path = inr eng /\ connect eng = Some e)).
Proof.
  split.
  - intros eng0. run_ingestion.
    destruct (create_engine db_path) as [e|eng].
    + destruct (is_ImportError e); [discriminate |].
      destruct (is_Exception e); discriminate.
    + destruct (connect eng) as [e|] eqn:Hconnect.
      * destruct (is_ImportError e); [discriminate |].
        destruct (is_Exception e); discriminate.
      * by intros [= <- _].
  - intros e0. run_ingestion.
    destruct (create_engine db_path) as [e|eng] eqn:Hcreate.
    + destruct (is_ImportError e) eqn:Himport; [discriminate |].
      destruct (is_Exception e); intros [= <- _]; split; auto.
    + destruct (connect eng) as [e|] eqn:Hconnect; [| discriminate].
      destruct (is_ImportError e) eqn:Himport; [discriminate |].
      destruct (is_Exception e); intros [= <- _]; split; eauto.
Qed.

Section Csv.

Variable Frame : Type.
Variable read_csv : string -> exc + Frame.

Local Abbreviation read_from_web_CSV :=
  (read_from_web_CSV exc str is_EmptyDataError is_Exception Frame read_csv).

(** X23.  [read_from_web_CSV] changes nothing of what [read_csv] does: it
    returns the frame read, an empty one included, after one INFO record,
    and raises the exception raised, after one ERROR record: the fixed
    text for an [EmptyDataError], the text with the exception's message
    for any other [Exception], and no record at all for an exception that
    is no [Exception]. *)
Theorem read_from_web_CSV_transparent URL logger :
  (forall df, read_csv URL = inr df ->
     read_from_web_CSV URL logger =
       (Returned df,
        logger ++ [(INFO, "CSV file read successfully from the web.")])) /\
  (forall e, read_csv URL = inl e ->
     (read_from_web_CSV URL logger).1 = Raised (Library e) /\
     (is_EmptyDataError e = true ->
        (read_from_web_CSV URL logger).2 =
          logger ++ [(ERROR, "The URL does not point to a valid CSV file. Please check the URL and try again.")]) /\
     (is_EmptyDataError e = false -> is_Exception e = true ->
        (read_from_web_CSV URL logger).2 =
          logger ++ [(ERROR, "Failed to read CSV from the web. Error: " +:+ str e)]) /\
     (is_EmptyDataError e = false -> is_Exception e = false ->
        (read_from_web_CSV URL logger).2 = logger)).
Proof.
  split.
  - intros df Hread. run_ingestion. by rewrite Hread.
  - intros e Hread. run_ingestion. rewrite Hread.
    destruct (is_EmptyDataError e); [| destruct (is_Exception e)];
      repeat split; done.
Qed.

End Csv.

End Library.

Section Examples.

Local Abbreviation query :=
  (query_data Sample.library_error Sample.str Sample.is_ValueError
     Sample.is_Exception string Sample.connect Sample.read_sql_query).
Local Abbreviation engine_of :=
  (create_db_engine Sample.library_error Sample.str Sample.is_ImportError
     Sample.is_Exception string Sample.create_engine Sample.connect).

Lemma query_data_never_empty_witness :
  empty Sample.fields = false /\
  Sample.connect "sqlite:///farm.db" = None /\
  Sample.read_sql_query "sqlite:///farm.db" "SELECT * FROM geographic_features"
  = inr Sample.fields /\
  [(INFO, "Query executed successfully.")]
  = [] ++ [(INFO, "Query executed successfully.")].
Proof.
  apply (query_data_never_empty Sample.library_error Sample.str
           Sample.is_ValueError Sample.is_Exception string Sample.connect
           Sample.read_sql_query
           "sqlite:///farm.db" "SELECT * FROM geographic_features" []
           Sample.fields [(INFO, "Query executed successfully.")]).
  reflexivity.
Defined.

Lemma query_data_empty_result_witness :
  query "sqlite:///farm.db" "SELECT * FROM geographic_features WHERE 0" []
  = (Raised (NewValueError "The query returned an empty DataFrame."),
     [(ERROR, "The query returned an empty DataFrame.");
      (ERROR, "SQL query failed. Error: The query returned an empty DataFrame.")]).
Proof.
  apply (query_data_empty_result Sample.library_error Sample.str
           Sample.is_ValueError Sample.is_Exception string Sample.connect
           Sample.read_sql_query
           "sqlite:///farm.db" "SELECT * FROM geographic_features WHERE 0" []
           Sample.header_only); reflexivity.
Defined.

Lemma create_db_engine_import_error_witness :
  engine_of "postgresql://farm" []
  = (Raised (UnboundLocalError "e"),
     [(ERROR, "SQLAlchemy is required to use this function. Please install it first.")]).
Proof.
  apply (create_db_engine_import_error Sample.library_error Sample.str
           Sample.is_ImportError Sample.is_Exception string Sample.create_engine
           Sample.connect "postgresql://farm" [] Sample.DriverMissing).
  - by left.
  - reflexivity.
Defined.

Lemma read_from_web_CSV_transparent_witness :
  read_from_web_CSV Sample.library_error Sample.str Sample.is_EmptyDataError
    Sample.is_Exception FieldDataProcessor.DataFrame Sample.read_csv
    "mapping.csv" []
  = (Returned Sample.station_mapping,
     [(INFO, "CSV file read successfully from the web.")]) /\
  (read_from_web_CSV Sample.library_error Sample.str Sample.is_EmptyDataError
     Sample.is_Exception FieldDataProcessor.DataFrame Sample.read_csv
     "nothing.csv" []).2
  = [(ERROR, "The URL does not point to a valid CSV file. Please check the URL and try again.")] /\
  (read_from_web_CSV Sample.library_error Sample.str Sample.is_EmptyDataError
     Sample.is_Exception FieldDataProcessor.DataFrame Sample.read_csv
     "elsewhere.csv" []).2
  = [].
Proof.
  split; [| split].
  - apply (proj1 (read_from_web_CSV_transparent Sample.library_error Sample.str
                    Sample.is_EmptyDataError Sample.is_Exception
                    FieldDataProcessor.DataFrame Sample.read_csv
                    "mapping.csv" [])).
    reflexivity.
  - apply (proj2 (read_from_web_CSV_transparent Sample.library_error Sample.str
                    Sample.is_EmptyDataError Sample.is_Exception
                    FieldDataProcessor.DataFrame Sample.read_csv
                    "nothing.csv" []) Sample.EmptyFile); reflexivity.
  - apply (proj2 (read_from_web_CSV_transparent Sample.library_error Sample.str
                    Sample.is_EmptyDataError Sample.is_Exception
                    FieldDataProcessor.DataFrame Sample.read_csv
                    "elsewhere.csv" []) Sample.Interrupted); reflexivity.
Defined.

Lemma create_db_engine_outcome_witness :
  (Sample.create_engine "sqlite:///farm.db" = inr "sqlite:///farm.db" /\
   Sample.connect "sqlite:///farm.db" = None) /\
  Sample.is_ImportError Sample.Unreachable = false.
Proof.
  destruct (create_db_engine_outcome Sample.library_error Sample.str
              Sample.is_ImportError Sample.is_Exception string
              Sample.create_engine Sample.connect
              "sqlite:///farm.db" []
              [(INFO, "Database engine created successfully.")]) as [Hok _].
  destruct (create_db_engine_outcome Sample.library_error Sample.str
              Sample.is_ImportError Sample.is_Exception string
              Sample.create_engine Sample.connect
              "sqlite:///nowhere/farm.db" []
              [(ERROR, "Failed to create database engine. Error: unable to open database file")])
    as [_ Hraised].
  split.
  - apply Hok. reflexivity.
  - apply (Hraised Sample.Unreachable). reflexivity.
Defined.

End Examples.

End IngestionLaws.

(** * Properties of the validation tests *)

Module ValidationLaws.
Import FieldDataProcessor validate_data.

(** The comparison runs over a column without text, and all its flags
    are set exactly when every cell compares true. *)
Lemma traverse_ge_zero (col : list cell) :
  (forall r s, col !! r <> Some (Str s)) ->
  exists flags,
    traverse ge_zero col = Ok flags /\
    (all flags = true <-> forall r c, col !! r = Some c -> ge_zero c = Ok true).
Proof.
  induction col as [|c col IH]; intros Hcol.
  - exists []. split; [done |]. split; [by intros _ r c | done].
  - destruct IH as (flags & Hrun & Hall).
    { intros r s. apply (Hcol (S r) s). }
    assert (Hc : exists b, ge_zero c = Ok b).
    { destruct c as [|q|s|z]; simpl; eauto. by destruct (Hcol 0%nat s). }
    destruct Hc as [b Hb].
    exists (b :: flags). simpl. rewrite Hb, Hrun. split; [done |].
    unfold all in *. simpl. rewrite andb_true_iff, Hall. split.
    + intros [Hhead Htail] [|r] c'; simpl.
      * intros [= <-]. unfold id in Hhead. by rewrite Hb, Hhead.
      * apply Htail.
    + intros Hcells. split.
      * specialize (Hcells 0%nat c eq_refl). unfold id. congruence.
      * intros r c'. apply (Hcells (S r)).
Qed.

(** What the comparison makes of a corrected cell. *)
Lemma ge_zero_abs_cell c c' :
  abs_cell c = Ok c' ->
  (c <> NaN -> c <> Int int64_min -> ge_zero c' = Ok true) /\
  (c = NaN \/ c = Int int64_min -> ge_zero c' = Ok false).
Proof.
  destruct c as [|q|s|z]; simpl; intros [= <-].
  - split; [done | by intros _].
  - split; [| by intros [? | ?]]. intros _ _. simpl. f_equal.
    apply Qle_bool_iff, Qabs_nonneg.
  - destruct (z =? int64_min)%Z eqn:Hz.
    + apply Z.eqb_eq in Hz as ->. split; [done | by intros _].
    + apply Z.eqb_neq in Hz. split; [| intros [? | [= ?]]; done].
      intros _ _. simpl. f_equal. apply Z.leb_le, Z.abs_nonneg.
Qed.

(** X26.  On a well-formed frame with distinct labels whose elevation
    column holds no text, the frame [apply_corrections] leaves satisfies
    [test_field_DataFrame_non_negative_elevation], whatever the signs
    were, when no elevation is missing or the least [int64]; when one is,
    the corrections leave it as it was and the test fails. *)
Theorem corrections_pass_elevation_test self frame weather_df :
  df self = Some frame ->
  well_formed frame ->
  NoDup (columns frame) ->
  "Elevation" ∈ columns frame ->
  "Crop_type" ∈ columns frame ->
  (forall r s, at_label frame r "Elevation" <> Some (Str s)) ->
  exists out,
    apply_corrections "Crop_type" "Elevation" self = (Ok tt, with_df out self) /\
    ((forall r c, at_label frame r "Elevation" = Some c ->
        c <> NaN /\ c <> Int int64_min) ->
     test_field_DataFrame_non_negative_elevation (weather_df, out) = Passed) /\
    ((exists r c, at_label frame r "Elevation" = Some c /\
        (c = NaN \/ c = Int int64_min)) ->
     test_field_DataFrame_non_negative_elevation (weather_df, out)
     = AssertionFailed "Elevation values must be non-negative.").
Proof.
  intros Hdf Hwf _ Habs Hcol Hnum.
  destruct (FieldLaws.apply_corrections_runs self frame "Crop_type" "Elevation")
    as (corrected & renamed & Hrun & Hlenc & Hlenr & Hcorr & _); try done.
  set (frame1 := setitem frame "Elevation" corrected) in *.
  set (out := setitem frame1 "Crop_type" renamed) in *.
  assert (Hwf1 : well_formed frame1) by by apply FieldFacts.setitem_well_formed.
  assert (Hcols1 : columns frame1 = columns frame)
    by by apply FieldFacts.setitem_columns.
  assert (Hrows1 : length (rows frame1) = length (rows frame))
    by by apply FieldFacts.setitem_length.
  assert (Hwfo : well_formed out)
    by (apply FieldFacts.setitem_well_formed; [done | by rewrite Hcols1]).
  assert (Habso : "Elevation" ∈ columns out).
  { unfold out. rewrite FieldFacts.setitem_columns; by rewrite Hcols1. }
  exists out. split; [exact Hrun |].
  destruct (FieldFacts.getitem_at_label out "Elevation" Hwfo Habso)
    as (elevations & Hget & Hlen & Hcells).
  assert (Hout : forall r, elevations !! r = corrected !! r).
  { intros r. rewrite Hcells. unfold out.
    rewrite FieldFacts.at_label_setitem;
      [| done | by rewrite Hcols1 | congruence].
    rewrite decide_False by done. unfold frame1.
    rewrite FieldFacts.at_label_setitem by done.
    by rewrite decide_True. }
  assert (Hfrom : forall r c', elevations !! r = Some c' ->
    exists c, at_label frame r "Elevation" = Some c /\ abs_cell c = Ok c').
  { intros r c' Hc'. rewrite Hout in Hc'.
    assert (Hr : (r < length (rows frame))%nat)
      by (apply lookup_lt_Some in Hc'; lia).
    destruct (FieldLaws.at_label_lt frame r "Elevation" Hwf Habs Hr) as [c Hc].
    exists c. split; [done |].
    destruct (Hcorr r c Hc) as (c1 & Hc1 & Habsc). congruence. }
  destruct (traverse_ge_zero elevations) as (flags & Hflags & Hall).
  { intros r s Hr. destruct (Hfrom r _ Hr) as (c & Hc & Habsc).
    destruct c as [|q|s0|z]; simpl in Habsc; discriminate Habsc. }
  unfold test_field_DataFrame_non_negative_elevation.
  rewrite Hget, Hflags. unfold assert. split.
  - intros Hgood. replace (all flags) with true; [done |].
    symmetry. apply Hall. intros r c' Hr.
    destruct (Hfrom r c' Hr) as (c & Hc & Habsc).
    destruct (Hgood r c Hc) as [Hnan Hmin].
    by apply (ge_zero_abs_cell c c' Habsc).
  - intros (r & c & Hc & Hbad).
    destruct (all flags) eqn:Hflag; [| done].
    destruct (Hcorr r c Hc) as (c' & Hc' & Habsc).
    rewrite <- Hout in Hc'.
    pose proof (proj1 Hall eq_refl r c' Hc') as Htrue.
    pose proof (proj2 (ge_zero_abs_cell c c' Habsc) Hbad) as Hfalse.
    congruence.
Qed.

(** X27.  [test_positive_rainfall_values] examines the first frame the
    fixture yields, the weather frame: when that frame has no [Rainfall]
    column the test fails on its first assertion, whatever the field
    frame holds. *)
Theorem rainfall_test_reads_weather_frame weather_df field_df :
  "Rainfall" ∉ columns weather_df ->
  test_positive_rainfall_values (weather_df, field_df)
  = AssertionFailed "Rainfall column is missing from field_df.".
Proof.
  intros Hmissing. unfold test_positive_rainfall_values, assert.
  by rewrite bool_decide_eq_false_2.
Qed.

Section Examples.

Lemma corrections_pass_elevation_test_witness :
  test_field_DataFrame_non_negative_elevation
    (Sample.weather_file, Sample.fields_repaired)
  = AssertionFailed "Elevation values must be non-negative." /\
  (exists out,
     apply_corrections "Crop_type" "Elevation"
       (Sample.field (Some Sample.fields_repaired))
     = (Ok tt, Sample.field (Some out)) /\
     test_field_DataFrame_non_negative_elevation (Sample.weather_file, out)
     = Passed) /\
  (exists out,
     apply_corrections "Crop_type" "Elevation"
       (Sample.field (Some Sample.surveyed))
     = (Ok tt, Sample.field (Some out)) /\
     test_field_DataFrame_non_negative_elevation (Sample.weather_file, out)
     = AssertionFailed "Elevation values must be non-negative.").
Proof.
  split; [reflexivity |]. split.
  - destruct (corrections_pass_elevation_test
                (Sample.field (Some Sample.fields_repaired)) Sample.fields_repaired
                Sample.weather_file) as (out & Hrun & Hpass & _).
    + reflexivity.
    + by repeat constructor.
    + FieldFacts.distinct_labels.
    + by repeat constructor.
    + by repeat constructor.
    + intros [|[|r]] s; discriminate.
    + exists out. split; [exact Hrun |]. apply Hpass.
      intros [|[|r]] c; cbn; intros [= <-]; by split.
  - destruct (corrections_pass_elevation_test
                (Sample.field (Some Sample.surveyed)) Sample.surveyed
                Sample.weather_file) as (out & Hrun & _ & Hfail).
    + reflexivity.
    + by repeat constructor.
    + FieldFacts.distinct_labels.
    + by repeat constructor.
    + by repeat constructor.
    + intros [|[|r]] s; discriminate.
    + exists out. split; [exact Hrun |]. apply Hfail.
      exists 1%nat, (Int int64_min). split; [reflexivity | by right].
Defined.

Lemma rainfall_test_reads_weather_frame_witness :
  test_weather_DataFrame_columns (Sample.weather_file, Sample.field_file) = Passed /\
  test_positive_rainfall_values (Sample.weather_file, Sample.field_file)
  = AssertionFailed "Rainfall column is missing from field_df." /\
  test_positive_rainfall_values (Sample.field_file, Sample.weather_file) = Passed.
Proof.
  split; [reflexivity |]. split; [| reflexivity].
  apply (rainfall_test_reads_weather_frame Sample.weather_file Sample.field_file).
  intros Hin. by repeat (apply elem_of_cons in Hin as [Hin | Hin]; [done |]);
    apply elem_of_nil in Hin.
Defined.

End Examples.

End ValidationLaws.

(** * Properties of the logger set-up *)

Module LoggingLaws.
Import logging_setup.

Lemma initialize_logging_handlers logging_level logger :
  handlers (initialize_logging logging_level logger) = handlers logger \/
  (handlers logger = [] /\
   exists h, handlers (initialize_logging logging_level logger) = [h]).
Proof.
  unfold initialize_logging.
  repeat case_match; simpl; try (by left); right; split; try done; by eexists.
Qed.

(** X28.  Creating processors never piles up handlers: setting the
    logger up again with the same level changes nothing, and however many
    instances are created over a logger that had at most one handler, it
    still has at most one. *)
Theorem initialize_logging_no_duplicate_handler logging_levels logger :
  (length (handlers logger) <= 1)%nat ->
  (length (handlers (instances logging_levels logger)) <= 1)%nat /\
  forall logging_level,
    initialize_logging logging_level (initialize_logging logging_level logger)
    = initialize_logging logging_level logger.
Proof.
  intros Hone. split.
  - revert logger Hone. unfold instances.
    induction logging_levels as [|l ls IH]; intros logger Hone; [done |].
    simpl. apply IH.
    destruct (initialize_logging_handlers l logger) as [-> | (_ & h & ->)];
      [done | simpl; lia].
  - intros logging_level. unfold initialize_logging.
    destruct (String.eqb (upper logging_level) "DEBUG"); simpl.
    { by destruct (handlers logger). }
    destruct (String.eqb (upper logging_level) "INFO"); simpl.
    { by destruct (handlers logger). }
    destruct (String.eqb (upper logging_level) "NONE"); simpl; [done |].
    by destruct (handlers logger).
Qed.

(** X29.  Nothing enables the logger again: once an instance was created
    with level NONE, the logger stays disabled for every instance created
    afterwards, whatever level it asks for. *)
Theorem initialize_logging_disabled_for_good before after logger :
  disabled (instances (before ++ "NONE" :: after) logger) = true /\
  disabled (instances (before ++ "none" :: after) logger) = true.
Proof.
  assert (Hkeep : forall ls lg, disabled lg = true -> disabled (instances ls lg) = true).
  { unfold instances. induction ls as [|l ls IH]; intros lg Hlg; [done |].
    simpl. apply IH. unfold initialize_logging.
    repeat case_match; simpl; done. }
  unfold instances in *. rewrite !foldl_app. split; simpl; by apply Hkeep.
Qed.

Section Examples.

Lemma initialize_logging_no_duplicate_handler_witness :
  handlers (instances ["INFO"; "debug"; "verbose"] getLogger)
  = [StreamHandler "%(asctime)s - %(name)s - %(levelname)s - %(message)s"] /\
  (length (handlers (instances ["INFO"; "debug"; "verbose"] getLogger)) <= 1)%nat.
Proof.
  split; [reflexivity |].
  apply (initialize_logging_no_duplicate_handler
           ["INFO"; "debug"; "verbose"] getLogger).
  simpl. lia.
Defined.

Example disabled_then_debug :
  instances ["NONE"; "DEBUG"] getLogger
  = {| propagate := false; disabled := true; threshold := Some DEBUG;
       handlers :=
         [StreamHandler "%(asctime)s - %(name)s - %(levelname)s - %(message)s"] |}.
Proof. reflexivity. Qed.

End Examples.

End LoggingLaws.
